(** * Supply-chain scenario calculator: a shallow embedding of [app.py]

    The script loads a table of SKUs, validates and cleans it, builds a
    baseline and a scenario tariff map, computes landed costs, searches a
    cheaper supplier country per SKU and reports a few aggregates.

    Conventions of the embedding.
    - Python floats are modelled by exact rationals ([Q]); equality of
      computed numbers is [Qeq] ([==]).  Rounding, infinities and NaN of
      IEEE arithmetic are outside the model.
    - Python [int] (the [annual_units] column after [astype(int)]) is [Z].
    - A Python [dict] keyed by country is a [gmap string Q]; a Python [set]
      of strings is a [gset string], enumerated in an order that belongs to
      the run; [sorted(...)] is a merge sort under the lexicographic order
      on strings.
    - A pandas DataFrame is a header with a list of rows of cells;
      [df.apply(f, axis=1)] and column arithmetic are maps over the rows,
      and [df[name]] is the first column of that name (a header that
      repeats a name, and what pandas does inside [apply] on a frame
      without rows, are outside the model).
    - Widgets and charts are not modelled; the sidebar is the values its
      widgets return. *)

From Stdlib Require Import ZArith QArith Qminmax Lqa.
From Stdlib Require Import Ascii String.
From stdpp Require Import base decidable option list sorting.
From stdpp Require Import strings gmap fin_maps fin_sets.

Local Open Scope Q_scope.

(** * Part I: the program *)

(** ** Numbers *)

Module Num.

(** [x < y] on floats, as a boolean. *)
Definition ltb (x y : Q) : bool := negb (Qle_bool y x).

(** Truth value of a Python float: zero is false, anything else true. *)
Definition truthy (x : Q) : bool := negb (Qeq_bool x 0).

(** Python's [max(a, b)]: keeps the first argument unless the second one
    is strictly greater. *)
Definition pymax (a b : Q) : Q := if ltb a b then b else a.

(** [Series.astype(int)] on a float: truncation toward zero. *)
Definition astype_int (x : Q) : Z := Z.quot (Qnum x) (Zpos (Qden x)).

(** [Series.sum()]: left fold starting from zero. *)
Definition sum (l : list Q) : Q := fold_left Qplus l 0.

End Num.

(** ** Strings *)

Module Str.

(** [str.lower()] on the ASCII letters; other bytes are left alone. *)
Definition lower_ascii (c : ascii) : ascii :=
  let n := nat_of_ascii c in
  if (andb (Nat.leb 65 n) (Nat.leb n 90)) then ascii_of_nat (n + 32) else c.

Fixpoint lower (s : string) : string :=
  match s with
  | EmptyString => EmptyString
  | String c s' => String (lower_ascii c) (lower s')
  end.

(** Order used by [sorted] on strings: lexicographic on the bytes. *)
Definition le (a b : string) : Prop := String.leb a b = true.

#[global] Instance le_dec : RelDecision le.
Proof. intros a b. unfold le. apply _. Defined.

(** [sorted(x)]. *)
Definition sorted (l : list string) : list string := merge_sort le l.

End Str.

(** ** Data frames *)

(** A value held by a DataFrame cell after [pd.read_csv]: a number, a text,
    or a missing value (NaN). *)
Inductive cell : Type :=
| CNum (x : Q)
| CText (s : string)
| CNA.

(** The table as loaded: the header as written in the file, and one list of
    cells per data row (a short row reads as missing cells). *)
Record frame : Type := Frame {
  columns : list string;
  body : list (list cell)
}.

(** Iteration order of a Python [set] of strings in one run of the
    interpreter: some enumeration of its elements, fixed by the hash seed. *)
Record hashseed : Type := HashSeed {
  set_iter : gset string -> list string;
  set_iter_perm : forall s, set_iter s ≡ₚ elements s
}.

Fixpoint index_of (name : string) (cols : list string) : option nat :=
  match cols with
  | [] => None
  | c :: cs => if decide (c = name) then Some 0%nat else S <$> index_of name cs
  end.

(** [row[name]] for a row of a frame whose header is [cols]. *)
Definition getitem (cols : list string) (row : list cell) (name : string) : cell :=
  match index_of name cols with
  | Some i => default CNA (row !! i)
  | None => CNA
  end.

(** ** Record loader and validator (lines 30-40) *)

(** The two ways the script stops: [st.error] followed by [st.stop()] on a
    missing column, and the [TypeError] Python raises when [sorted] meets a
    number among country names. *)
Inductive error : Type :=
| SchemaError (missing : gset string) (expected : list string)
| TypeError.

Definition required_columns : list string :=
  ["sku"; "product_name"; "base_cost"; "supplier_country"; "hs_code";
   "annual_units"]%string.

Definition required : gset string := list_to_set required_columns.

(** [missing = required - set([c.lower() for c in df.columns])] *)
Definition missing (df : frame) : gset string :=
  required ∖ list_to_set (Str.lower <$> columns df).

(** One row after the cleaning block. The pass-through columns keep their
    cells; [supplier_country] is still a cell, a text or a number. *)
Record cleaned : Type := Cleaned {
  c_sku : cell;
  c_product_name : cell;
  c_base_cost : Q;
  c_supplier_country : cell;
  c_hs_code : cell;
  c_annual_units : Z
}.

(** One item record, with a country name. *)
Record record : Type := Record_ {
  sku : cell;
  product_name : cell;
  base_cost : Q;
  supplier_country : string;
  hs_code : cell;
  annual_units : Z
}.

(** [.fillna(v)] on one value; [None] is NaN. *)
Definition fillna {A : Type} (v : A) (o : option A) : A := default v o.

(** [df["supplier_country"].fillna("Unknown")] on one cell. *)
Definition fill_country (c : cell) : cell :=
  match c with
  | CNA => CText "Unknown"
  | _ => c
  end.

(** The country column feeds [sorted(...)] together with text keys (lines
    60 and 65): a number there raises [TypeError]. *)
Definition country_name (c : cleaned) : option string :=
  match c_supplier_country c with
  | CText s => Some s
  | _ => None
  end.

Definition to_record (c : cleaned) : option record :=
  name ← country_name c;
  Some {| sku := c_sku c;
          product_name := c_product_name c;
          base_cost := c_base_cost c;
          supplier_country := name;
          hs_code := c_hs_code c;
          annual_units := c_annual_units c |}.

Section Loader.

(** [pd.to_numeric] reading the text of one cell as a number, or failing. *)
Variable parse_number : string -> option Q.

(** [pd.to_numeric(..., errors="coerce")] on one cell. *)
Definition to_numeric (c : cell) : option Q :=
  match c with
  | CNum x => Some x
  | CText s => parse_number s
  | CNA => None
  end.

Definition clean_base_cost (c : cell) : Q := fillna 0 (to_numeric c).

Definition clean_annual_units (c : cell) : Z :=
  Num.astype_int (fillna 0 (to_numeric c)).

(** Lines 38-40 on one row. *)
Definition clean_row (cols : list string) (row : list cell) : cleaned :=
  {| c_sku := getitem cols row "sku";
     c_product_name := getitem cols row "product_name";
     c_base_cost := clean_base_cost (getitem cols row "base_cost");
     c_supplier_country := fill_country (getitem cols row "supplier_country");
     c_hs_code := getitem cols row "hs_code";
     c_annual_units := clean_annual_units (getitem cols row "annual_units") |}.

(** Lines 30-40: normalise the header, stop on a missing column, clean. *)
Definition load (df : frame) : error + list cleaned :=
  let cols := Str.lower <$> columns df in
  if decide (missing df = ∅)
  then inr (clean_row cols <$> body df)
  else inl (SchemaError (missing df) (Str.sorted required_columns)).

End Loader.

(** A reader of plain decimal literals ([-12.5], [20000]), used where a
    concrete [pd.to_numeric] is needed to run the model. *)
Module Decimal.

Definition digit (c : ascii) : option Z :=
  let n := nat_of_ascii c in
  if (andb (Nat.leb 48 n) (Nat.leb n 57)) then Some (Z.of_nat (n - 48)) else None.

(** Digits read so far as a numerator, with the number of fraction digits
    once the point has been passed. *)
Fixpoint digits (s : string) (acc : Z) (frac : option nat) (seen : bool)
  : option (Z * nat) :=
  match s with
  | EmptyString => if seen then Some (acc, default 0%nat frac) else None
  | String c s' =>
      if Ascii.eqb c "."
      then match frac with
           | None => digits s' acc (Some 0%nat) seen
           | Some _ => None
           end
      else match digit c with
           | Some d => digits s' (10 * acc + d)%Z (S <$> frac) true
           | None => None
           end
  end.

Definition unsigned (s : string) : option Q :=
  match digits s 0%Z None false with
  | Some (n, k) => Some (Qmake n (Z.to_pos (10 ^ Z.of_nat k)))
  | None => None
  end.

Definition parse (s : string) : option Q :=
  match s with
  | String "-" s' => Qopp <$> unsigned s'
  | String "+" s' => unsigned s'
  | _ => unsigned s
  end.

End Decimal.

(** ** Tariff table (lines 45-68) *)

Definition default_tariffs_builtin : gmap string Q :=
  list_to_map
    [("China", 0.20); ("Vietnam", 0.08); ("India", 0.10); ("Mexico", 0.05);
     ("USA", 0.00); ("Thailand", 0.06); ("Malaysia", 0.05);
     ("Indonesia", 0.07); ("Taiwan", 0.04); ("Unknown", 0.00)]%string.

(** [d.setdefault(c, v)] *)
Definition setdefault (c : string) (v : Q) (d : gmap string Q) : gmap string Q :=
  match d !! c with
  | Some _ => d
  | None => <[c := v]> d
  end.

(** [d.get(c, v)] *)
Definition get (d : gmap string Q) (c : string) (v : Q) : Q := default v (d !! c).

(** [list(d.keys())] *)
Definition keys (d : gmap string Q) : list string := (map_to_list d).*1.

(** [Series.unique()] *)
Definition unique (l : list string) : list string := remove_dups l.

(** Lines 59-61: every country of the data gets an entry. *)
Definition default_tariffs (rows : list record) : gmap string Q :=
  foldl (fun d c => setdefault c 0.05 d) default_tariffs_builtin
        (Str.sorted (unique (supplier_country <$> rows))).

(** The sidebar: what each [number_input] returns given its label and its
    initial value, and what the FX slider returns. *)
Record sidebar : Type := Sidebar {
  number_input : string -> Q -> Q;
  slider : Q
}.

(** The sidebar left untouched: every widget returns its initial value. *)
Definition untouched : sidebar :=
  {| number_input := fun _ v => v; slider := 1.00 |}.

(** Lines 64-66. The initial value of a widget is [default_tariffs[c]] for
    a key [c] of that map, so the lookup always finds an entry. *)
Definition country_rates (ui : sidebar) (dt : gmap string Q) : gmap string Q :=
  foldl (fun cr c => <[c := number_input ui c (get dt c 0)]> cr) ∅
        (Str.sorted (keys dt)).

(** ** Cost model (lines 72-81) *)

(** [landed_cost(row, country_map, fx)] *)
Definition landed_cost (row : record) (country_map : gmap string Q) (fx : Q) : Q :=
  let t := get country_map (supplier_country row) 0.05 in
  base_cost row * (1 + t) * fx.

(** A record with the columns of lines 76-81. *)
Record costed : Type := Costed {
  item : record;
  baseline_tariff : option Q;
  baseline_landed_cost : Q;
  scenario_landed_cost : Q;
  annual_cost_baseline : Q;
  annual_cost_scenario : Q;
  annual_delta : Q
}.

Definition cost_row (dt cr : gmap string Q) (fx_adj : Q) (row : record) : costed :=
  let baseline := landed_cost row dt 1.0 in
  let scenario := landed_cost row cr fx_adj in
  let annual_baseline := baseline * inject_Z (annual_units row) in
  let annual_scenario := scenario * inject_Z (annual_units row) in
  {| item := row;
     baseline_tariff := dt !! supplier_country row;
     baseline_landed_cost := baseline;
     scenario_landed_cost := scenario;
     annual_cost_baseline := annual_baseline;
     annual_cost_scenario := annual_scenario;
     annual_delta := annual_scenario - annual_baseline |}.

(** ** Recommendation engine (lines 84-98) *)

Definition listed_countries : list string :=
  ["China"; "Vietnam"; "India"; "Mexico"; "Thailand"; "Malaysia";
   "Indonesia"; "Taiwan"; "USA"]%string.

(** Line 84: [sorted(set(list(default_tariffs.keys()) + [...]))]. *)
Definition candidate_countries (seed : hashseed) (dt : gmap string Q) : list string :=
  Str.sorted (set_iter seed (list_to_set (keys dt ++ listed_countries))).

Section Recommendation.

(** The globals [best_alternative] reads. *)
Variables (candidates : list string) (cr : gmap string Q) (fx_adj : Q).

(** Landed cost of [row] were it sourced from country [c] (lines 90-91). *)
Definition alt_cost (row : costed) (c : string) : Q :=
  let t := get cr c 0.05 in
  base_cost (item row) * (1 + t) * fx_adj.

(** One turn of the loop of lines 89-93 on [(best_country, best_cost)]. *)
Definition scan (row : costed) (best : string * Q) (c : string) : string * Q :=
  if Num.ltb (alt_cost row c) (snd best) then (c, alt_cost row c) else best.

(** [best_alternative(row)] *)
Definition best_alternative (row : costed) : string * Q * Q :=
  let current := supplier_country (item row) in
  let current_cost := scenario_landed_cost row in
  let best := foldl (scan row) (current, current_cost) candidates in
  let savings_per_unit := Num.pymax 0.0 (current_cost - snd best) in
  (fst best, snd best, savings_per_unit).

End Recommendation.

(** A record with every derived column. *)
Record enriched : Type := Enriched {
  costs : costed;
  alt_country : string;
  alt_landed_cost : Q;
  savings_per_unit_if_switch : Q;
  annual_savings_if_switch : Q
}.

(** Lines 97-98 on one row. *)
Definition recommend_row (candidates : list string) (cr : gmap string Q)
    (fx_adj : Q) (row : costed) : enriched :=
  let '(country, cost, savings) := best_alternative candidates cr fx_adj row in
  {| costs := row;
     alt_country := country;
     alt_landed_cost := cost;
     savings_per_unit_if_switch := savings;
     annual_savings_if_switch := savings * inject_Z (annual_units (item row)) |}.

(** ** Aggregator (lines 100-119) *)

Definition desc {A : Type} (key : A -> Q) (x y : A) : Prop :=
  Qle_bool (key y) (key x) = true.

#[global] Instance desc_dec {A : Type} (key : A -> Q) : RelDecision (desc key).
Proof. intros x y. unfold desc. apply _. Defined.

(** [sort_values(key, ascending=False)]; the order pandas leaves among equal
    keys is not specified, the model keeps a merge sort's. *)
Definition sort_desc {A : Type} (key : A -> Q) (l : list A) : list A :=
  merge_sort (desc key) l.

(** [head(n)] *)
Definition head {A : Type} (n : nat) (l : list A) : list A := take n l.

(** The float division of [x / y]: it has no value when [y] is zero. *)
Definition divide (x y : Q) : option Q :=
  if Qeq_bool y 0 then None else Some (x / y).

(** The four metrics of lines 101-106; [delta_percent] is the percentage
    shown with the delta, [None] if computing it faults. *)
Record kpis : Type := Kpis {
  skus : nat;
  annual_cost_baseline_total : Q;
  annual_cost_scenario_total : Q;
  delta_total : Q;
  delta_percent : option Q
}.

(** Lines 101-106. *)
Definition metrics (df : list enriched) : kpis :=
  let baseline := Num.sum ((annual_cost_baseline ∘ costs) <$> df) in
  let scenario := Num.sum ((annual_cost_scenario ∘ costs) <$> df) in
  let delta := scenario - baseline in
  {| skus := length df;
     annual_cost_baseline_total := baseline;
     annual_cost_scenario_total := scenario;
     delta_total := delta;
     delta_percent :=
       if Num.truthy baseline
       then (fun q => q * 100) <$> divide delta baseline
       else Some 0 |}.

(** Line 109. *)
Definition top_inc (df : list enriched) : list enriched :=
  head 15 (sort_desc (annual_delta ∘ costs) df).

Definition country_of (e : enriched) : string := supplier_country (item (costs e)).

(** Line 114: one row per country, in key order, then sorted by spend. *)
Definition share (df : list enriched) : list (string * Q) :=
  let groups := Str.sorted (unique (country_of <$> df)) in
  let spend c :=
    Num.sum ((annual_cost_scenario ∘ costs)
               <$> filter (fun e => country_of e = c) df) in
  sort_desc snd ((fun c => (c, spend c)) <$> groups).

(** Line 119. *)
Definition recs (df : list enriched) : list enriched :=
  head 15 (sort_desc annual_savings_if_switch
             (filter (fun e => Num.ltb 0 (annual_savings_if_switch e) = true) df)).

(** ** The whole script *)

Record output : Type := Output {
  table : list enriched;
  kpi : kpis;
  increases : list enriched;
  spend_share : list (string * Q);
  recommendations : list enriched
}.

(** Lines 59-119 on cleaned rows whose countries are names. *)
Definition compute (seed : hashseed) (ui : sidebar) (rows : list record) : output :=
  let dt := default_tariffs rows in
  let cr := country_rates ui dt in
  let fx_adj := slider ui in
  let candidates := candidate_countries seed dt in
  let df := recommend_row candidates cr fx_adj <$> (cost_row dt cr fx_adj <$> rows) in
  {| table := df;
     kpi := metrics df;
     increases := top_inc df;
     spend_share := share df;
     recommendations := recs df |}.

Definition pipeline (seed : hashseed) (parse_number : string -> option Q)
    (ui : sidebar) (df : frame) : error + output :=
  match load parse_number df with
  | inl e => inl e
  | inr cleaned_rows =>
      match mapM to_record cleaned_rows with
      | None => inl TypeError
      | Some rows => inr (compute seed ui rows)
      end
  end.

(** ** Notions the statements below are phrased with *)

(** The tariff-table contract: [map[country]] if present, else 0.05. *)
Definition resolve (country : string) (m : gmap string Q) : Q :=
  match m !! country with
  | Some rate => rate
  | None => 0.05
  end.

(** The least of a list of costs, if there is any. *)
Definition minimum (l : list Q) : option Q :=
  match l with
  | [] => None
  | x :: l' => Some (foldl Qmin x l')
  end.


(** A list with one more element at position [k]. *)
Definition insert_at {A : Type} (k : nat) (x : A) (l : list A) : list A :=
  take k l ++ x :: drop k l.

(** A frame with one more column at position [k]: its name in the header,
    one cell in each row. *)
Definition add_column (k : nat) (name : string) (cells : list cell) (df : frame)
  : frame :=
  {| columns := insert_at k name (columns df);
     body := zip_with (insert_at k) cells (body df) |}.

(** ** Concrete runs *)

Module Demo.

(** A run in which sets are enumerated in the order of [elements]. *)
Definition seed : hashseed :=
  {| set_iter := elements; set_iter_perm := fun s => reflexivity (elements s) |}.

(** A run in which the same sets are enumerated backwards. *)
Definition seed_rev : hashseed :=
  {| set_iter := fun s => reverse (elements s);
     set_iter_perm := fun s => reverse_Permutation (elements s) |}.

Definition header : list string :=
  ["SKU"; "Product_Name"; "base_cost"; "supplier_country"; "hs_code";
   "annual_units"]%string.

(** Placeholders for the branches the runs below do not take. *)
Definition no_output : output := Output [] (Kpis 0 0 0 0 None) [] [] [].

Definition no_row : enriched :=
  Enriched (Costed (Record_ CNA CNA 0 "" CNA 0) None 0 0 0 0 0) "" 0 0 0.

(** First row of the table of a run. *)
Definition first_row (o : output) : enriched :=
  match table o with
  | e :: _ => e
  | [] => no_row
  end.

Definition result (r : error + output) : output :=
  match r with
  | inr o => o
  | inl _ => no_output
  end.

(** The record of the worked example: 100 units at 10.0 from China. *)
Definition df : frame :=
  {| columns := header;
     body := [[CText "SKU-001"; CText "Widget A"; CNum 10.0; CText "China";
               CNum 850440; CNum 100]] |}.

(** China lowered to 0.10, every other country raised to 0.15. *)
Definition ui : sidebar :=
  {| number_input := fun c _ => if decide (c = "China"%string) then 0.10 else 0.15;
     slider := 1.00 |}.

Definition out : output :=
  Eval vm_compute in result (pipeline seed Decimal.parse ui df).

Definition row : enriched := Eval vm_compute in first_row out.

End Demo.

Module DemoSchema.

(** The demo table with its [hs_code] column left out. *)
Definition df : frame :=
  {| columns := ["SKU"; "Product_Name"; "base_cost"; "supplier_country";
                 "annual_units"]%string;
     body := [[CText "SKU-001"; CText "Widget A"; CNum 10.0; CText "China";
               CNum 100]] |}.

End DemoSchema.

Module DemoNegative.

(** A refund line: a negative cost and a negative volume. *)
Definition df : frame :=
  {| columns := Demo.header;
     body := [[CText "SKU-009"; CText "Refund"; CNum (-5); CText "China";
               CNum 850440; CText "-3"]] |}.


End DemoNegative.

Module DemoSwitch.

(** Two records, one sourced from Brazil, which the built-in table does not
    know. *)
Definition df : frame :=
  {| columns := Demo.header;
     body := [[CText "SKU-001"; CText "Widget A"; CNum 10.0; CText "China";
               CNum 850440; CNum 100];
              [CText "SKU-002"; CText "Widget B"; CNum 8.2; CText "Brazil";
               CNum 850440; CNum 15000]] |}.

(** The rate of Brazil set to zero, every other widget left alone. *)
Definition ui : sidebar :=
  {| number_input := fun c v => if decide (c = "Brazil"%string) then 0.00 else v;
     slider := 1.00 |}.

Definition out : output :=
  Eval vm_compute in Demo.result (pipeline Demo.seed Decimal.parse ui df).

(** The record sourced from China, as enriched by the run. *)
Definition china : enriched := Eval vm_compute in Demo.first_row out.

End DemoSwitch.

Module DemoTie.

(** Every country at the same rate: all candidates tie. *)
Definition ui : sidebar :=
  {| number_input := fun _ _ => 0.10; slider := 1.00 |}.

Definition out : output :=
  Eval vm_compute in
    Demo.result (pipeline Demo.seed Decimal.parse ui DemoSwitch.df).

(** The record sourced from China. *)
Definition china : enriched := Eval vm_compute in Demo.first_row out.

End DemoTie.

Module DemoFree.

(** A record whose cost cell is not a number. *)
Definition df : frame :=
  {| columns := Demo.header;
     body := [[CText "SKU-001"; CText "Widget A"; CText "free"; CText "China";
               CNum 850440; CNum 100]] |}.

Definition out : output :=
  Eval vm_compute in
    Demo.result (pipeline Demo.seed Decimal.parse untouched df).

Definition row : enriched := Eval vm_compute in Demo.first_row out.

End DemoFree.

Module DemoFx.

(** The sidebar of [DemoSwitch] with the FX slider moved to 1.20. *)
Definition ui : sidebar :=
  {| number_input := number_input DemoSwitch.ui; slider := 1.20 |}.

Definition out : output :=
  Eval vm_compute in
    Demo.result (pipeline Demo.seed Decimal.parse ui DemoSwitch.df).

End DemoFx.

Module DemoExtra.

(** The table of [DemoSwitch] with a column of notes after the product
    name. *)
Definition df : frame :=
  add_column 2 "Notes" [CText "urgent"; CNA] DemoSwitch.df.

End DemoExtra.

Module DemoCredit.

(** A credit line: a negative cost, the sidebar left alone. *)
Definition df : frame :=
  {| columns := Demo.header;
     body := [[CText "SKU-009"; CText "Refund"; CNum (-5); CText "Mexico";
               CNum 850440; CNum 10]] |}.

Definition out : output :=
  Eval vm_compute in
    Demo.result (pipeline Demo.seed Decimal.parse untouched df).

Definition row : enriched := Eval vm_compute in Demo.first_row out.

End DemoCredit.

(** * Part II: properties *)

(** ** Numbers *)

Module NumFacts.

Lemma ltb_lt x y : Num.ltb x y = true <-> x < y.
Proof.
  unfold Num.ltb. rewrite negb_true_iff. split.
  - intros H. apply Qnot_le_lt. intros Hle.
    apply Qle_bool_iff in Hle. congruence.
  - intros H. destruct (Qle_bool y x) eqn:E; [|reflexivity].
    apply Qle_bool_iff in E. exfalso. apply (Qlt_not_le _ _ H E).
Qed.

Lemma ltb_ge x y : Num.ltb x y = false <-> y <= x.
Proof. unfold Num.ltb. rewrite negb_false_iff. apply Qle_bool_iff. Qed.

Lemma pymax_ge_l a b : a <= Num.pymax a b.
Proof.
  unfold Num.pymax. destruct (Num.ltb a b) eqn:E.
  - apply ltb_lt in E. apply Qlt_le_weak, E.
  - apply Qle_refl.
Qed.


(** On two numbers [pymax] is the mathematical maximum. *)
Lemma pymax_Qmax a b : Num.pymax a b == Qmax a b.
Proof.
  unfold Num.pymax. destruct (Num.ltb a b) eqn:E.
  - apply ltb_lt in E. symmetry. apply Q.max_r. by apply Qlt_le_weak.
  - apply ltb_ge in E. symmetry. by apply Q.max_l.
Qed.


Lemma foldl_Qmin_le_seed (l : list Q) (x : Q) : foldl Qmin x l <= x.
Proof.
  revert x. induction l as [|y l IH]; intros x; simpl.
  - apply Qle_refl.
  - eapply Qle_trans; [apply IH | apply Q.le_min_l].
Qed.

Lemma foldl_Qmin_le_elem (l : list Q) (x y : Q) : y ∈ l -> foldl Qmin x l <= y.
Proof.
  revert x. induction l as [|z l IH]; intros x Hy; simpl.
  - by apply elem_of_nil in Hy.
  - apply elem_of_cons in Hy as [-> | Hy].
    + eapply Qle_trans; [apply foldl_Qmin_le_seed | apply Q.le_min_r].
    + by apply IH.
Qed.

Lemma minimum_le (l : list Q) (m y : Q) : minimum l = Some m -> y ∈ l -> m <= y.
Proof.
  destruct l as [|x l]; simpl; [done|]. intros [= <-] Hy.
  apply elem_of_cons in Hy as [-> | Hy].
  - apply foldl_Qmin_le_seed.
  - by apply foldl_Qmin_le_elem.
Qed.

End NumFacts.

(** ** Strings and [sorted] *)

Module StrFacts.

Lemma elem_of_sorted (l : list string) (x : string) : x ∈ Str.sorted l <-> x ∈ l.
Proof. unfold Str.sorted. by rewrite merge_sort_Permutation. Qed.

Lemma compare_refl (a : string) : String.compare a a = Eq.
Proof.
  induction a as [|c a IH]; simpl; [reflexivity|].
  unfold Ascii.compare. by rewrite N.compare_refl.
Qed.

Lemma compare_lt_trans (a b c : string) :
  String.compare a b = Lt -> String.compare b c = Lt -> String.compare a c = Lt.
Proof.
  revert b c. induction a as [|x a IH]; intros [|y b] [|z c]; simpl; try congruence.
  destruct (Ascii.compare x y) eqn:Exy; try congruence.
  - apply Ascii.compare_eq_iff in Exy. subst y.
    destruct (Ascii.compare x z); try congruence. apply IH.
  - intros _. destruct (Ascii.compare y z) eqn:Eyz; try congruence.
    + apply Ascii.compare_eq_iff in Eyz. subst z. by rewrite Exy.
    + intros _. unfold Ascii.compare in *.
      rewrite N.compare_lt_iff in Exy, Eyz.
      assert (H : (N_of_ascii x < N_of_ascii z)%N) by lia.
      rewrite <- N.compare_lt_iff in H. by rewrite H.
Qed.

#[global] Instance le_total : Total Str.le.
Proof. intros a b. apply String.leb_total. Qed.

#[global] Instance le_antisym : AntiSymm (=) Str.le.
Proof. intros a b. apply String.leb_antisym. Qed.

#[global] Instance le_trans : Transitive Str.le.
Proof.
  intros a b c. unfold Str.le, String.leb.
  destruct (String.compare a b) eqn:Eab; try congruence;
    destruct (String.compare b c) eqn:Ebc; try congruence; intros _ _.
  - apply String.compare_eq_iff in Eab, Ebc. subst. by rewrite compare_refl.
  - apply String.compare_eq_iff in Eab. subst. by rewrite Ebc.
  - apply String.compare_eq_iff in Ebc. subst. by rewrite Eab.
  - by rewrite (compare_lt_trans a b c).
Qed.

(** [sorted] forgets the order in which its argument was enumerated. *)
Lemma sorted_Permutation (l1 l2 : list string) :
  l1 ≡ₚ l2 -> Str.sorted l1 = Str.sorted l2.
Proof.
  intros H. unfold Str.sorted. apply (Sorted_unique Str.le).
  - apply Sorted_merge_sort, _.
  - apply Sorted_merge_sort, _.
  - by rewrite !merge_sort_Permutation.
Qed.

End StrFacts.

Example lower_header : Str.lower "Base_Cost" = "base_cost"%string.
Proof. reflexivity. Qed.

Example sorted_countries :
  Str.sorted ["Vietnam"; "China"; "USA"; "Unknown"]%string
  = ["China"; "USA"; "Unknown"; "Vietnam"]%string.
Proof. vm_compute. reflexivity. Qed.

Example parse_cost : Decimal.parse "12.5" = Some (125 # 10).
Proof. reflexivity. Qed.

Example parse_negative : Decimal.parse "-5" = Some (-5 # 1).
Proof. reflexivity. Qed.

Example parse_text : Decimal.parse "n/a" = None.
Proof. reflexivity. Qed.

(** The worked example: 10.0 from China, 100 units, China lowered from 0.20
    to 0.10. *)
Example demo_landed_costs :
  baseline_landed_cost (costs Demo.row) == 12.0 /\
  scenario_landed_cost (costs Demo.row) == 11.0 /\
  annual_cost_baseline (costs Demo.row) == 1200.0 /\
  annual_cost_scenario (costs Demo.row) == 1100.0 /\
  annual_delta (costs Demo.row) == -100.0.
Proof. vm_compute. repeat split; congruence. Qed.


(** ** The candidate scan *)

Section ScanFacts.

Variables (cr : gmap string Q) (fx_adj : Q) (row : costed).

(** The best cost never goes up during the scan. *)
Lemma scan_cost_le (cands : list string) (best : string * Q) :
  snd (foldl (scan cr fx_adj row) best cands) <= snd best.
Proof.
  revert best. induction cands as [|c cands IH]; intros best; simpl.
  - apply Qle_refl.
  - eapply Qle_trans; [apply IH|].
    unfold scan. destruct (Num.ltb _ _) eqn:E; simpl.
    + apply NumFacts.ltb_lt in E. by apply Qlt_le_weak.
    + apply Qle_refl.
Qed.

(** The scan ends on its seed or on one of the candidates, with the cost
    of that candidate. *)
Lemma scan_result (cands : list string) (best : string * Q) :
  foldl (scan cr fx_adj row) best cands = best \/
  exists c, c ∈ cands /\
    foldl (scan cr fx_adj row) best cands = (c, alt_cost cr fx_adj row c).
Proof.
  revert best. induction cands as [|c cands IH]; intros best; simpl.
  - by left.
  - destruct (IH (scan cr fx_adj row best c)) as [H | (c' & Hc' & H)].
    + rewrite H. unfold scan. destruct (Num.ltb _ _).
      * right. exists c. split; [by left | done].
      * by left.
    + right. exists c'. split; [by right | done].
Qed.

(** A seed that no candidate beats strictly survives the scan. *)
Lemma scan_keeps_seed (cands : list string) (best : string * Q) :
  (forall c, c ∈ cands -> snd best <= alt_cost cr fx_adj row c) ->
  foldl (scan cr fx_adj row) best cands = best.
Proof.
  revert best. induction cands as [|c cands IH]; intros best Hmin; simpl.
  - done.
  - assert (Hc : scan cr fx_adj row best c = best).
    { unfold scan. destruct (Num.ltb _ _) eqn:E; [|done].
      apply NumFacts.ltb_lt in E. exfalso.
      apply (Qlt_not_le _ _ E). apply Hmin. by left. }
    rewrite Hc. apply IH. intros c' Hc'. apply Hmin. by right.
Qed.

End ScanFacts.

(** ** Shape of a successful run *)

Lemma pipeline_inr seed parse ui df out :
  pipeline seed parse ui df = inr out ->
  exists rows,
    missing df = ∅ /\
    mapM to_record (clean_row parse (Str.lower <$> columns df) <$> body df)
      = Some rows /\
    out = compute seed ui rows.
Proof.
  unfold pipeline, load. intros H.
  destruct (decide (missing df = ∅)) as [Hm|Hm]; [|discriminate].
  destruct (mapM _ _) as [rows|] eqn:E; [|discriminate].
  exists rows. split_and!; [done | done | congruence].
Qed.

Lemma elem_of_table seed ui rows e :
  e ∈ table (compute seed ui rows) ->
  exists r, r ∈ rows /\
    e = recommend_row (candidate_countries seed (default_tariffs rows))
          (country_rates ui (default_tariffs rows)) (slider ui)
          (cost_row (default_tariffs rows)
             (country_rates ui (default_tariffs rows)) (slider ui) r).
Proof.
  unfold compute; simpl. intros H.
  apply list_elem_of_fmap in H as (c & -> & H).
  apply list_elem_of_fmap in H as (r & -> & H).
  by exists r.
Qed.

Lemma costs_recommend_row cands cr fx row :
  costs (recommend_row cands cr fx row) = row.
Proof. reflexivity. Qed.

Lemma item_cost_row dt cr fx r : item (cost_row dt cr fx r) = r.
Proof. reflexivity. Qed.

(** The records behind the output table are the loaded ones. *)
Lemma table_items seed ui rows :
  (item ∘ costs) <$> table (compute seed ui rows) = rows.
Proof.
  unfold compute; simpl. rewrite <- !list_fmap_compose.
  transitivity (id <$> rows); [|apply list_fmap_id].
  apply list_fmap_ext. intros; reflexivity.
Qed.

(** The four columns [best_alternative] and line 98 write, in terms of the
    scan. *)
Lemma alt_of_recommend_row cands cr fx row :
  let best := foldl (scan cr fx row)
                (supplier_country (item row), scenario_landed_cost row) cands in
  alt_country (recommend_row cands cr fx row) = fst best
  /\ alt_landed_cost (recommend_row cands cr fx row) = snd best
  /\ savings_per_unit_if_switch (recommend_row cands cr fx row)
     = Num.pymax 0.0 (scenario_landed_cost row - snd best)
  /\ annual_savings_if_switch (recommend_row cands cr fx row)
     = savings_per_unit_if_switch (recommend_row cands cr fx row)
       * inject_Z (annual_units (item row)).
Proof. repeat split. Qed.


(** ** Cost model *)

(** C1. For every record of a successful run, the scenario landed cost is
    [base_cost * (1 + rate) * fx] for the rate resolved in the scenario map
    and the FX multiplier of the sidebar, the baseline landed cost is the
    same formula with the baseline map and [fx = 1.0], the two annual costs
    are the landed costs times [annual_units], and [annual_delta] is their
    difference; a rate resolves to the map's entry, else to 0.05. *)
Theorem cost_model_formulas seed parse ui df out e :
  pipeline seed parse ui df = inr out ->
  e ∈ table out ->
  let r := item (costs e) in
  let baseline_map := default_tariffs ((item ∘ costs) <$> table out) in
  let scenario_map := country_rates ui baseline_map in
  scenario_landed_cost (costs e)
    = base_cost r * (1 + resolve (supplier_country r) scenario_map) * slider ui
  /\ baseline_landed_cost (costs e)
    = base_cost r * (1 + resolve (supplier_country r) baseline_map) * 1.0
  /\ annual_cost_scenario (costs e)
    = scenario_landed_cost (costs e) * inject_Z (annual_units r)
  /\ annual_cost_baseline (costs e)
    = baseline_landed_cost (costs e) * inject_Z (annual_units r)
  /\ annual_delta (costs e)
    = annual_cost_scenario (costs e) - annual_cost_baseline (costs e).
Proof.
  intros Hrun He.
  apply pipeline_inr in Hrun as (rows & _ & _ & ->).
  rewrite table_items.
  apply elem_of_table in He as (r & _ & ->).
  cbn zeta. rewrite costs_recommend_row, item_cost_row.
  repeat split.
Qed.

Lemma cost_model_formulas_witness :
  scenario_landed_cost (costs Demo.row) = 10.0 * (1 + 0.10) * 1.00
  /\ baseline_landed_cost (costs Demo.row) = 10.0 * (1 + 0.20) * 1.0
  /\ annual_cost_scenario (costs Demo.row)
     = scenario_landed_cost (costs Demo.row) * inject_Z 100
  /\ annual_cost_baseline (costs Demo.row)
     = baseline_landed_cost (costs Demo.row) * inject_Z 100
  /\ annual_delta (costs Demo.row)
     = annual_cost_scenario (costs Demo.row) - annual_cost_baseline (costs Demo.row).
Proof.
  apply (cost_model_formulas Demo.seed Decimal.parse Demo.ui Demo.df Demo.out
           Demo.row).
  - vm_compute. reflexivity.
  - vm_compute. left.
Defined.

(** ** Loader and validator *)

Lemma elem_of_missing df c :
  c ∈ missing df <-> c ∈ required_columns /\ c ∉ Str.lower <$> columns df.
Proof.
  unfold missing, required.
  rewrite elem_of_difference, !elem_of_list_to_set. done.
Qed.

Example missing_hs_code : missing DemoSchema.df = {["hs_code"%string]}.
Proof. vm_compute. reflexivity. Qed.

(** C2. The columns reported missing are exactly the required ones absent
    from the lower-cased header. If there is one, the run stops with a
    [SchemaError] carrying them and the expected schema, which is an error
    value without any table. If there is none, validation lets the frame
    through: every row is cleaned, and the run does not end in a
    [SchemaError]. *)
Theorem schema_validation seed parse ui df :
  (forall c, c ∈ missing df <->
             c ∈ required_columns /\ c ∉ Str.lower <$> columns df)
  /\ (missing df ≠ ∅ ->
      pipeline seed parse ui df
        = inl (SchemaError (missing df) (Str.sorted required_columns)))
  /\ (missing df = ∅ ->
      load parse df
        = inr (clean_row parse (Str.lower <$> columns df) <$> body df)
      /\ forall m expected, pipeline seed parse ui df ≠ inl (SchemaError m expected)).
Proof.
  split; [apply elem_of_missing|]. unfold pipeline, load. split; intros H.
  - destruct (decide (missing df = ∅)); [contradiction | reflexivity].
  - destruct (decide (missing df = ∅)); [|contradiction].
    split; [reflexivity|]. intros m expected.
    destruct (mapM _ _); discriminate.
Qed.

Lemma schema_validation_witness :
  pipeline Demo.seed Decimal.parse Demo.ui DemoSchema.df
    = inl (SchemaError (missing DemoSchema.df) (Str.sorted required_columns))
  /\ load Decimal.parse Demo.df
    = inr (clean_row Decimal.parse (Str.lower <$> columns Demo.df) <$> body Demo.df).
Proof.
  split.
  - apply (schema_validation Demo.seed Decimal.parse Demo.ui DemoSchema.df).
    vm_compute. discriminate.
  - apply (schema_validation Demo.seed Decimal.parse Demo.ui Demo.df).
    vm_compute. reflexivity.
Defined.





(** ** Tariff table and candidate list *)

Lemma elem_of_keys (d : gmap string Q) (c : string) :
  c ∈ keys d <-> is_Some (d !! c).
Proof.
  unfold keys. rewrite list_elem_of_fmap. split.
  - intros ([c' v] & -> & H). apply elem_of_map_to_list in H. by exists v.
  - intros [v H]. exists (c, v). split; [done|]. by apply elem_of_map_to_list.
Qed.

Lemma setdefault_is_Some (c c' : string) (v : Q) (d : gmap string Q) :
  is_Some (setdefault c v d !! c') <-> c' = c \/ is_Some (d !! c').
Proof.
  unfold setdefault. destruct (d !! c) as [w|] eqn:E.
  - split; [by right|]. intros [-> | H]; [by exists w | done].
  - destruct (decide (c = c')) as [<- | Hne].
    + rewrite lookup_insert_eq. split; [by left | by exists v].
    + rewrite lookup_insert_ne by done. split; [by right|].
      intros [-> | H]; [congruence | done].
Qed.

Lemma setdefault_all_is_Some (l : list string) (v : Q) (d : gmap string Q) c :
  is_Some (foldl (fun d c => setdefault c v d) d l !! c)
  <-> c ∈ l \/ is_Some (d !! c).
Proof.
  revert d. induction l as [|x l IH]; intros d; simpl.
  - rewrite elem_of_nil. tauto.
  - rewrite IH, setdefault_is_Some, elem_of_cons. tauto.
Qed.

(** The countries with an entry in the baseline map: the built-in ones and
    every supplier country of the data. *)
Lemma elem_of_keys_default_tariffs (rows : list record) (c : string) :
  c ∈ keys (default_tariffs rows)
  <-> c ∈ keys default_tariffs_builtin \/ c ∈ supplier_country <$> rows.
Proof.
  unfold default_tariffs, unique.
  rewrite !elem_of_keys, setdefault_all_is_Some,
    StrFacts.elem_of_sorted, elem_of_remove_dups. tauto.
Qed.

Lemma elem_of_candidate_countries seed (d : gmap string Q) (c : string) :
  c ∈ candidate_countries seed d <-> c ∈ keys d \/ c ∈ listed_countries.
Proof.
  unfold candidate_countries.
  rewrite StrFacts.elem_of_sorted, (set_iter_perm seed), elem_of_elements,
    elem_of_list_to_set, elem_of_app. done.
Qed.

Lemma candidate_countries_seed seed1 seed2 (d : gmap string Q) :
  candidate_countries seed1 d = candidate_countries seed2 d.
Proof.
  unfold candidate_countries. apply StrFacts.sorted_Permutation.
  by rewrite !set_iter_perm.
Qed.

(** ** Recommendation engine *)

(** C3 as stated fails: the run proposes Brazil for the record sourced from
    China, although Brazil is neither in the built-in tariff table nor in
    the list written in the script. *)
Lemma switch_to_data_country :
  pipeline Demo.seed Decimal.parse DemoSwitch.ui DemoSwitch.df = inr DemoSwitch.out
  /\ DemoSwitch.china ∈ table DemoSwitch.out
  /\ supplier_country (item (costs DemoSwitch.china)) = "China"%string
  /\ alt_country DemoSwitch.china = "Brazil"%string
  /\ ("Brazil"%string ∉ listed_countries)
  /\ default_tariffs_builtin !! "Brazil"%string = None.
Proof.
  split_and!.
  - vm_compute. reflexivity.
  - vm_compute. left.
  - reflexivity.
  - reflexivity.
  - intros H. vm_compute in H.
    by repeat (apply elem_of_cons in H as [H|H]; [discriminate|]);
      apply elem_of_nil in H.
  - vm_compute. reflexivity.
Qed.

(** C3, amended. For every record, [alt_country] is the record's current
    [supplier_country] or a member of the candidate list, and that list
    holds the countries written in the script, the built-in tariff table's
    countries, and every supplier country present in the loaded records. *)
Theorem switch_destinations seed parse ui df out e :
  pipeline seed parse ui df = inr out ->
  e ∈ table out ->
  alt_country e = supplier_country (item (costs e))
  \/ alt_country e ∈ listed_countries
  \/ alt_country e ∈ keys default_tariffs_builtin
  \/ exists e', e' ∈ table out /\ alt_country e = supplier_country (item (costs e')).
Proof.
  intros Hrun He.
  apply pipeline_inr in Hrun as (rows & _ & _ & ->).
  pose proof (table_items seed ui rows) as Hitems.
  apply elem_of_table in He as (r & _ & ->).
  set (dt := default_tariffs rows) in *. set (cr := country_rates ui dt) in *.
  destruct (alt_of_recommend_row (candidate_countries seed dt) cr (slider ui)
              (cost_row dt cr (slider ui) r)) as (-> & _).
  rewrite costs_recommend_row.
  destruct (scan_result cr (slider ui) (cost_row dt cr (slider ui) r)
              (candidate_countries seed dt)
              (supplier_country (item (cost_row dt cr (slider ui) r)),
               scenario_landed_cost (cost_row dt cr (slider ui) r)))
    as [-> | (c & Hc & ->)]; [by left | right]; simpl.
  apply elem_of_candidate_countries in Hc as [Hc | Hc]; [|by left].
  right. apply elem_of_keys_default_tariffs in Hc as [Hc | Hc]; [by left | right].
  rewrite <- Hitems, <- list_fmap_compose in Hc.
  apply list_elem_of_fmap in Hc as (e' & -> & He').
  by exists e'.
Qed.

Lemma switch_destinations_witness :
  alt_country DemoSwitch.china = supplier_country (item (costs DemoSwitch.china))
  \/ alt_country DemoSwitch.china ∈ listed_countries
  \/ alt_country DemoSwitch.china ∈ keys default_tariffs_builtin
  \/ exists e', e' ∈ table DemoSwitch.out
       /\ alt_country DemoSwitch.china = supplier_country (item (costs e')).
Proof.
  apply (switch_destinations Demo.seed Decimal.parse DemoSwitch.ui DemoSwitch.df).
  - vm_compute. reflexivity.
  - vm_compute. left.
Defined.

(** C5. For every record, if the scenario landed cost of its current
    supplier equals the least landed cost over the candidate countries,
    then [alt_country] is the current [supplier_country]. *)
Theorem tie_keeps_current_supplier seed parse ui df out e m :
  pipeline seed parse ui df = inr out ->
  e ∈ table out ->
  let baseline_map := default_tariffs ((item ∘ costs) <$> table out) in
  let scenario_map := country_rates ui baseline_map in
  minimum (alt_cost scenario_map (slider ui) (costs e)
             <$> candidate_countries seed baseline_map) = Some m ->
  scenario_landed_cost (costs e) == m ->
  alt_country e = supplier_country (item (costs e)).
Proof.
  intros Hrun He.
  apply pipeline_inr in Hrun as (rows & _ & _ & ->).
  rewrite table_items.
  apply elem_of_table in He as (r & _ & ->).
  cbn zeta. rewrite costs_recommend_row. intros Hmin Hcur.
  match goal with
  | |- alt_country (recommend_row ?cands ?cr ?fx ?row) = _ =>
      destruct (alt_of_recommend_row cands cr fx row) as (-> & _);
      rewrite (scan_keeps_seed cr fx row cands); [reflexivity|]
  end.
  intros c Hc; simpl. rewrite Hcur.
  apply (NumFacts.minimum_le _ _ _ Hmin). apply list_elem_of_fmap. by exists c.
Qed.

Lemma tie_keeps_current_supplier_witness :
  alt_country DemoTie.china = supplier_country (item (costs DemoTie.china)).
Proof.
  apply (tie_keeps_current_supplier Demo.seed Decimal.parse DemoTie.ui
           DemoSwitch.df DemoTie.out DemoTie.china (1100000 # 100000)).
  - vm_compute. reflexivity.
  - vm_compute. left.
  - vm_compute. reflexivity.
  - vm_compute. reflexivity.
Defined.

(** C6. For every record, the alternative's landed cost is at most the
    record's current scenario landed cost. *)
Theorem alternative_never_worse seed parse ui df out e :
  pipeline seed parse ui df = inr out ->
  e ∈ table out ->
  alt_landed_cost e <= scenario_landed_cost (costs e).
Proof.
  intros Hrun He.
  apply pipeline_inr in Hrun as (rows & _ & _ & ->).
  apply elem_of_table in He as (r & _ & ->).
  rewrite costs_recommend_row.
  match goal with
  | |- alt_landed_cost (recommend_row ?cands ?cr ?fx ?row) <= _ =>
      destruct (alt_of_recommend_row cands cr fx row) as (_ & -> & _);
      apply (scan_cost_le cr fx row cands)
  end.
Qed.

Lemma alternative_never_worse_witness :
  alt_landed_cost DemoSwitch.china <= scenario_landed_cost (costs DemoSwitch.china).
Proof.
  apply (alternative_never_worse Demo.seed Decimal.parse DemoSwitch.ui
           DemoSwitch.df DemoSwitch.out).
  - vm_compute. reflexivity.
  - vm_compute. left.
Defined.

(** C7. For every record, the saving per unit is the maximum of zero and
    the gap between the scenario landed cost and the alternative's, so it is
    never negative, and the annual saving is that saving times
    [annual_units]. *)
Theorem savings_clamped seed parse ui df out e :
  pipeline seed parse ui df = inr out ->
  e ∈ table out ->
  savings_per_unit_if_switch e
    = Num.pymax 0.0 (scenario_landed_cost (costs e) - alt_landed_cost e)
  /\ savings_per_unit_if_switch e
     == Qmax 0 (scenario_landed_cost (costs e) - alt_landed_cost e)
  /\ 0 <= savings_per_unit_if_switch e
  /\ annual_savings_if_switch e
     = savings_per_unit_if_switch e * inject_Z (annual_units (item (costs e))).
Proof.
  intros Hrun He.
  apply pipeline_inr in Hrun as (rows & _ & _ & ->).
  apply elem_of_table in He as (r & _ & ->).
  rewrite costs_recommend_row.
  match goal with
  | |- context [recommend_row ?cands ?cr ?fx ?row] =>
      destruct (alt_of_recommend_row cands cr fx row) as (_ & Hcost & Hsav & Hann)
  end.
  rewrite Hann, Hsav, Hcost. split_and!; try reflexivity.
  - rewrite NumFacts.pymax_Qmax. apply Q.max_compat; reflexivity.
  - eapply Qle_trans; [|apply NumFacts.pymax_ge_l]. discriminate.
Qed.

Lemma savings_clamped_witness :
  savings_per_unit_if_switch DemoSwitch.china
    = Num.pymax 0.0 (scenario_landed_cost (costs DemoSwitch.china)
                     - alt_landed_cost DemoSwitch.china)
  /\ savings_per_unit_if_switch DemoSwitch.china
     == Qmax 0 (scenario_landed_cost (costs DemoSwitch.china)
                - alt_landed_cost DemoSwitch.china)
  /\ 0 <= savings_per_unit_if_switch DemoSwitch.china
  /\ annual_savings_if_switch DemoSwitch.china
     = savings_per_unit_if_switch DemoSwitch.china
       * inject_Z (annual_units (item (costs DemoSwitch.china))).
Proof.
  apply (savings_clamped Demo.seed Decimal.parse DemoSwitch.ui DemoSwitch.df
           DemoSwitch.out).
  - vm_compute. reflexivity.
  - vm_compute. left.
Defined.



(** ** Aggregator *)




(** A table whose costs are all zero: the baseline total is 0 and the
    percentage is 0, with no division taking place. *)
Example zero_baseline_percent :
  delta_percent
    (kpi (Demo.result
            (pipeline Demo.seed Decimal.parse untouched
               {| columns := Demo.header;
                  body := [[CText "SKU-001"; CText "Widget A"; CText "free";
                            CText "China"; CNum 850440; CNum 100]] |})))
  = Some 0.
Proof. vm_compute. reflexivity. Qed.

(** ** Determinism *)

(** C9. Two runs on the same table and the same sidebar end the same way,
    with the same derived fields and the same aggregates, whatever order
    each run's interpreter enumerates its sets in. *)
Theorem pipeline_deterministic seed1 seed2 parse ui df :
  pipeline seed1 parse ui df = pipeline seed2 parse ui df.
Proof.
  unfold pipeline. destruct (load parse df) as [err|cleaned_rows]; [reflexivity|].
  destruct (mapM to_record cleaned_rows) as [rows|]; [|reflexivity].
  f_equal. unfold compute.
  by rewrite (candidate_countries_seed seed1 seed2).
Qed.

(** The two demo runs do enumerate a set differently. *)
Example enumeration_orders_differ :
  set_iter Demo.seed {["USA"; "China"]}%string
  ≠ set_iter Demo.seed_rev {["USA"; "China"]}%string.
Proof. vm_compute. discriminate. Qed.

(** * Part III: further properties of the script *)

(** ** Tariff table (lines 46-66) *)

Lemma setdefault_lookup (c c' : string) (v : Q) (d : gmap string Q) :
  setdefault c v d !! c'
  = match d !! c' with
    | Some t => Some t
    | None => if decide (c' = c) then Some v else None
    end.
Proof.
  unfold setdefault. destruct (d !! c) as [w|] eqn:E.
  - destruct (d !! c') as [t|] eqn:E'; [done|].
    destruct (decide (c' = c)) as [-> | _]; [congruence | done].
  - destruct (decide (c' = c)) as [-> | Hne].
    + by rewrite lookup_insert_eq, E.
    + rewrite lookup_insert_ne by done. by destruct (d !! c').
Qed.

Lemma setdefault_all_lookup (l : list string) (v : Q) (d : gmap string Q) c :
  foldl (fun d c => setdefault c v d) d l !! c
  = match d !! c with
    | Some t => Some t
    | None => if decide (c ∈ l) then Some v else None
    end.
Proof.
  revert d. induction l as [|x l IH]; intros d; simpl.
  - destruct (d !! c); [done|].
    destruct (decide (c ∈ [])) as [H|_]; [by apply elem_of_nil in H | done].
  - rewrite IH, setdefault_lookup. destruct (d !! c) as [t|]; [done|].
    destruct (decide (c ∈ l)) as [Hin | Hout];
      destruct (decide (c ∈ x :: l)) as [Hin' | Hout'];
      destruct (decide (c = x)) as [Heq | Hne]; try done.
    + exfalso. apply Hout'. by right.
    + exfalso. apply Hout'. by right.
    + apply elem_of_cons in Hin' as [?|?]; done.
    + exfalso. apply Hout'. subst. by left.
Qed.

(** The baseline map, key by key. *)
Lemma default_tariffs_lookup (rows : list record) (c : string) :
  default_tariffs rows !! c
  = match default_tariffs_builtin !! c with
    | Some t => Some t
    | None => if decide (c ∈ supplier_country <$> rows) then Some 0.05 else None
    end.
Proof.
  unfold default_tariffs, unique. rewrite setdefault_all_lookup.
  destruct (default_tariffs_builtin !! c); [done|].
  destruct (decide (c ∈ supplier_country <$> rows)) as [Hin | Hout];
    destruct (decide (c ∈ Str.sorted _)) as [Hin' | Hout']; try done.
  - exfalso. apply Hout'. by apply StrFacts.elem_of_sorted, elem_of_remove_dups.
  - exfalso. apply Hout.
    by rewrite StrFacts.elem_of_sorted, elem_of_remove_dups in Hin'.
Qed.

(** X1. The loop of lines 60-61 never overwrites a built-in rate: the
    baseline map extends the built-in table, gives 0.05 to every supplier
    country of the data that the built-in table does not know, and has no
    other key. *)
Theorem default_tariffs_extends_builtin (rows : list record) :
  default_tariffs_builtin ⊆ default_tariffs rows
  /\ (forall r, r ∈ rows ->
        default_tariffs_builtin !! supplier_country r = None ->
        default_tariffs rows !! supplier_country r = Some 0.05)
  /\ (forall c, is_Some (default_tariffs rows !! c) ->
        is_Some (default_tariffs_builtin !! c) \/ c ∈ supplier_country <$> rows).
Proof.
  split_and!.
  - apply map_subseteq_spec. intros c t Hc.
    by rewrite default_tariffs_lookup, Hc.
  - intros r Hr Hnone. rewrite default_tariffs_lookup, Hnone.
    destruct (decide (supplier_country r ∈ supplier_country <$> rows)) as [|Hout];
      [done|].
    exfalso. apply Hout, list_elem_of_fmap. by exists r.
  - intros c. rewrite default_tariffs_lookup.
    destruct (default_tariffs_builtin !! c) as [t|]; [by left; exists t|].
    destruct (decide (c ∈ supplier_country <$> rows)); [by right|].
    by intros [? ?].
Qed.

Lemma default_tariffs_extends_builtin_witness :
  default_tariffs ((item ∘ costs) <$> table DemoSwitch.out) !! "Brazil"%string
  = Some 0.05.
Proof.
  destruct (default_tariffs_extends_builtin ((item ∘ costs) <$> table DemoSwitch.out))
    as (_ & Hdata & _).
  apply (Hdata (Record_ (CText "SKU-002") (CText "Widget B") 8.2 "Brazil"
                  (CNum 850440) 15000)).
  - vm_compute. right. left.
  - vm_compute. reflexivity.
Defined.

Lemma insert_all_lookup (f : string -> Q) (l : list string) (m : gmap string Q) c :
  foldl (fun m c => <[c := f c]> m) m l !! c
  = if decide (c ∈ l) then Some (f c) else m !! c.
Proof.
  revert m. induction l as [|x l IH]; intros m; simpl.
  - destruct (decide (c ∈ [])) as [H|_]; [by apply elem_of_nil in H | done].
  - rewrite IH.
    destruct (decide (c ∈ l)) as [Hin | Hout];
      destruct (decide (c ∈ x :: l)) as [Hin' | Hout']; try done.
    + exfalso. apply Hout'. by right.
    + apply elem_of_cons in Hin' as [-> | ?]; [|done]. apply lookup_insert_eq.
    + apply lookup_insert_ne. intros ->. apply Hout'. by left.
Qed.

(** The scenario map, key by key. *)
Lemma country_rates_lookup (ui : sidebar) (dt : gmap string Q) (c : string) :
  country_rates ui dt !! c = number_input ui c <$> dt !! c.
Proof.
  unfold country_rates. rewrite insert_all_lookup.
  destruct (decide (c ∈ Str.sorted (keys dt))) as [Hin | Hout].
  - apply StrFacts.elem_of_sorted, elem_of_keys in Hin as [t Ht].
    unfold get. by rewrite Ht.
  - destruct (dt !! c) as [t|] eqn:E; [|apply lookup_empty].
    exfalso. apply Hout, StrFacts.elem_of_sorted, elem_of_keys. by exists t.
Qed.

(** X2. The scenario map has exactly the keys of the baseline map, and
    under each key the value its widget returned when offered the baseline
    rate as initial value. *)
Theorem country_rates_keys_and_values (ui : sidebar) (dt : gmap string Q) :
  dom (country_rates ui dt) = dom dt
  /\ forall c t, dt !! c = Some t ->
       country_rates ui dt !! c = Some (number_input ui c t).
Proof.
  split.
  - apply set_eq. intros c. rewrite !elem_of_dom, country_rates_lookup.
    apply fmap_is_Some.
  - intros c t Hc. by rewrite country_rates_lookup, Hc.
Qed.

Lemma country_rates_keys_and_values_witness :
  country_rates DemoSwitch.ui default_tariffs_builtin !! "China"%string
  = Some (number_input DemoSwitch.ui "China" 0.20).
Proof.
  apply (country_rates_keys_and_values DemoSwitch.ui default_tariffs_builtin).
  vm_compute. reflexivity.
Defined.

(** X3. In a run the fallback rate of [landed_cost] is never reached: the
    country of every record has a baseline rate [t], its built-in rate or
    0.05, which is the record's [baseline_tariff] and prices its baseline
    cost, and the scenario cost is priced with what the widget of that
    country returned for [t]. *)
Theorem record_rates seed parse ui df out e :
  pipeline seed parse ui df = inr out ->
  e ∈ table out ->
  let r := item (costs e) in
  exists t,
    (default_tariffs_builtin !! supplier_country r = Some t
     \/ default_tariffs_builtin !! supplier_country r = None /\ t = 0.05)
    /\ baseline_tariff (costs e) = Some t
    /\ baseline_landed_cost (costs e) = base_cost r * (1 + t) * 1.0
    /\ scenario_landed_cost (costs e)
       = base_cost r * (1 + number_input ui (supplier_country r) t) * slider ui.
Proof.
  intros Hrun He.
  apply pipeline_inr in Hrun as (rows & _ & _ & ->).
  apply elem_of_table in He as (r & Hr & ->).
  cbn zeta. rewrite costs_recommend_row, item_cost_row.
  assert (Hin : supplier_country r ∈ supplier_country <$> rows).
  { apply list_elem_of_fmap. by exists r. }
  pose proof (default_tariffs_lookup rows (supplier_country r)) as Hdt.
  destruct (decide (supplier_country r ∈ supplier_country <$> rows)); [|done].
  unfold cost_row, landed_cost, get; simpl.
  rewrite country_rates_lookup.
  destruct (default_tariffs_builtin !! supplier_country r) as [t|] eqn:E;
    rewrite Hdt; simpl.
  - exists t. split_and!; try done. by left.
  - exists 0.05. split_and!; try done. by right.
Qed.

Lemma record_rates_witness :
  exists t,
    (default_tariffs_builtin !! supplier_country (item (costs Demo.row)) = Some t
     \/ default_tariffs_builtin !! supplier_country (item (costs Demo.row)) = None
        /\ t = 0.05)
    /\ baseline_tariff (costs Demo.row) = Some t
    /\ baseline_landed_cost (costs Demo.row)
       = base_cost (item (costs Demo.row)) * (1 + t) * 1.0
    /\ scenario_landed_cost (costs Demo.row)
       = base_cost (item (costs Demo.row))
         * (1 + number_input Demo.ui (supplier_country (item (costs Demo.row))) t)
         * slider Demo.ui.
Proof.
  apply (record_rates Demo.seed Decimal.parse Demo.ui Demo.df Demo.out Demo.row).
  - vm_compute. reflexivity.
  - vm_compute. left.
Defined.

(** ** Sums of columns *)

Module SumFacts.

Lemma fold_left_Qplus (l : list Q) (a : Q) :
  fold_left Qplus l a == a + fold_left Qplus l 0.
Proof.
  revert a. induction l as [|x l IH]; intros a; simpl.
  - ring.
  - rewrite (IH (a + x)), (IH (0 + x)). ring.
Qed.

Lemma sum_nil : Num.sum [] = 0.
Proof. reflexivity. Qed.

Lemma sum_cons (x : Q) (l : list Q) : Num.sum (x :: l) == x + Num.sum l.
Proof.
  unfold Num.sum; simpl. rewrite fold_left_Qplus. ring.
Qed.

Lemma sum_app (l1 l2 : list Q) : Num.sum (l1 ++ l2) == Num.sum l1 + Num.sum l2.
Proof.
  induction l1 as [|x l1 IH]; simpl.
  - rewrite sum_nil. ring.
  - rewrite !sum_cons, IH. ring.
Qed.




Lemma sum_zero {A : Type} (f : A -> Q) (l : list A) :
  (forall x, x ∈ l -> f x == 0) -> Num.sum (f <$> l) == 0.
Proof.
  induction l as [|x l IH]; intros H; simpl; [reflexivity|].
  rewrite sum_cons, IH.
  - rewrite (H x) by left. ring.
  - intros y Hy. apply H. by right.
Qed.

End SumFacts.

(** ** Deltas (lines 76-81 and 103-106) *)






(** ** The candidate scan, continued (lines 88-93) *)

Section ScanOrder.

Variables (cr : gmap string Q) (fx_adj : Q) (row : costed).

(** After the scan the best cost is at most the cost of every candidate. *)
Lemma scan_cost_min (cands : list string) (best : string * Q) (c : string) :
  c ∈ cands ->
  snd (foldl (scan cr fx_adj row) best cands) <= alt_cost cr fx_adj row c.
Proof.
  revert best. induction cands as [|x cands IH]; intros best Hc; simpl.
  - by apply elem_of_nil in Hc.
  - apply elem_of_cons in Hc as [-> | Hc]; [|by apply IH].
    eapply Qle_trans; [apply (scan_cost_le cr fx_adj row)|].
    unfold scan. destruct (Num.ltb _ _) eqn:E; simpl.
    + apply Qle_refl.
    + by apply NumFacts.ltb_ge in E.
Qed.

(** The seed survives, or the best cost went strictly down. *)
Lemma scan_seed_or_lower (cands : list string) (best : string * Q) :
  foldl (scan cr fx_adj row) best cands = best
  \/ snd (foldl (scan cr fx_adj row) best cands) < snd best.
Proof.
  revert best. induction cands as [|x cands IH]; intros best; simpl.
  - by left.
  - unfold scan at 2 4. destruct (Num.ltb _ _) eqn:E.
    + right. apply NumFacts.ltb_lt in E.
      eapply Qle_lt_trans; [apply (scan_cost_le cr fx_adj row) | exact E].
    + apply IH.
Qed.

(** A candidate that replaced the seed is the first of the list with its
    cost: every candidate before it costs strictly more, every candidate
    after it at least as much. *)
Lemma scan_first_minimum (cands : list string) (best : string * Q) :
  foldl (scan cr fx_adj row) best cands = best
  \/ exists before c after,
       cands = before ++ c :: after
       /\ foldl (scan cr fx_adj row) best cands = (c, alt_cost cr fx_adj row c)
       /\ alt_cost cr fx_adj row c < snd best
       /\ (forall c', c' ∈ before -> alt_cost cr fx_adj row c < alt_cost cr fx_adj row c')
       /\ (forall c', c' ∈ after -> alt_cost cr fx_adj row c <= alt_cost cr fx_adj row c').
Proof.
  induction cands as [|x cands IH] using rev_ind; [by left|].
  rewrite foldl_snoc.
  pose proof (scan_cost_le cr fx_adj row cands best) as Hle.
  pose proof (fun c' => scan_cost_min cands best c') as Hmin.
  set (res := foldl (scan cr fx_adj row) best cands) in *.
  unfold scan. destruct (Num.ltb _ _) eqn:E.
  - right. apply NumFacts.ltb_lt in E. exists cands, x, [].
    split_and!; [done | done | | |].
    + eapply Qlt_le_trans; [exact E | exact Hle].
    + intros c' Hc'. eapply Qlt_le_trans; [exact E|]. by apply Hmin.
    + intros c' Hc'. by apply elem_of_nil in Hc'.
  - apply NumFacts.ltb_ge in E.
    destruct IH as [IH | (before & c & after & -> & Hres & Hlt & Hbefore & Hafter)].
    + left. exact IH.
    + right. exists before, c, (after ++ [x]).
      rewrite Hres in E; simpl in E. rewrite Hres.
      split_and!; [by rewrite <- app_assoc | done | done | done |].
      intros c' [Hc' | ->%list_elem_of_singleton]%elem_of_app; [by apply Hafter | done].
Qed.

End ScanOrder.

(** ** Recommendation engine, continued (lines 84-98) *)

(** The current cost of a record is the cost of its own country as a
    candidate. *)
Lemma scenario_cost_is_alt_cost dt cr fx r :
  scenario_landed_cost (cost_row dt cr fx r)
  = alt_cost cr fx (cost_row dt cr fx r) (supplier_country r).
Proof. reflexivity. Qed.

(** The country of every record is a candidate. *)
Lemma current_is_candidate seed (rows : list record) (r : record) :
  r ∈ rows ->
  supplier_country r ∈ candidate_countries seed (default_tariffs rows).
Proof.
  intros Hr. apply elem_of_candidate_countries. left.
  apply elem_of_keys_default_tariffs. right.
  apply list_elem_of_fmap. by exists r.
Qed.

(** The columns written by [best_alternative] for a record whose country
    is among the candidates. *)
Lemma recommend_row_cheapest cands cr fx row :
  supplier_country (item row) ∈ cands ->
  scenario_landed_cost row = alt_cost cr fx row (supplier_country (item row)) ->
  alt_country (recommend_row cands cr fx row) ∈ cands
  /\ alt_landed_cost (recommend_row cands cr fx row)
     = alt_cost cr fx row (alt_country (recommend_row cands cr fx row))
  /\ forall c, c ∈ cands ->
       alt_landed_cost (recommend_row cands cr fx row) <= alt_cost cr fx row c.
Proof.
  intros Hcur Hcost.
  destruct (alt_of_recommend_row cands cr fx row) as (-> & -> & _).
  split_and!.
  - destruct (scan_result cr fx row cands
                (supplier_country (item row), scenario_landed_cost row))
      as [-> | (c & Hc & ->)]; done.
  - destruct (scan_result cr fx row cands
                (supplier_country (item row), scenario_landed_cost row))
      as [-> | (c & Hc & ->)]; done.
  - intros c Hc. by apply scan_cost_min.
Qed.

(** X6. For every record the alternative is a cheapest candidate: it is one
    of the candidate countries, its landed cost is the cost of sourcing the
    record from it under the scenario rates, and no candidate country is
    cheaper. *)
Theorem alternative_is_cheapest_candidate seed parse ui df out e :
  pipeline seed parse ui df = inr out ->
  e ∈ table out ->
  let baseline_map := default_tariffs ((item ∘ costs) <$> table out) in
  let scenario_map := country_rates ui baseline_map in
  let candidates := candidate_countries seed baseline_map in
  alt_country e ∈ candidates
  /\ alt_landed_cost e = alt_cost scenario_map (slider ui) (costs e) (alt_country e)
  /\ forall c, c ∈ candidates ->
       alt_landed_cost e <= alt_cost scenario_map (slider ui) (costs e) c.
Proof.
  intros Hrun He.
  apply pipeline_inr in Hrun as (rows & _ & _ & ->).
  rewrite table_items.
  apply elem_of_table in He as (r & Hr & ->).
  cbn zeta. rewrite costs_recommend_row.
  apply recommend_row_cheapest.
  - by apply current_is_candidate.
  - apply scenario_cost_is_alt_cost.
Qed.

Lemma alternative_is_cheapest_candidate_witness :
  let baseline_map := default_tariffs ((item ∘ costs) <$> table DemoSwitch.out) in
  let scenario_map := country_rates DemoSwitch.ui baseline_map in
  let candidates := candidate_countries Demo.seed baseline_map in
  alt_country DemoSwitch.china ∈ candidates
  /\ alt_landed_cost DemoSwitch.china
     = alt_cost scenario_map (slider DemoSwitch.ui) (costs DemoSwitch.china)
         (alt_country DemoSwitch.china)
  /\ forall c, c ∈ candidates ->
       alt_landed_cost DemoSwitch.china
       <= alt_cost scenario_map (slider DemoSwitch.ui) (costs DemoSwitch.china) c.
Proof.
  apply (alternative_is_cheapest_candidate Demo.seed Decimal.parse DemoSwitch.ui
           DemoSwitch.df).
  - vm_compute. reflexivity.
  - vm_compute. left.
Defined.

Lemma pymax_zero_pos (d : Q) : 0 < Num.pymax 0.0 d <-> 0 < d.
Proof.
  unfold Num.pymax. destruct (Num.ltb 0.0 d) eqn:E.
  - apply NumFacts.ltb_lt in E. split; [|done]. intros _. lra.
  - apply NumFacts.ltb_ge in E. split; intros H; lra.
Qed.

(** The scan leaves the current country in place exactly when it finds no
    strictly cheaper candidate. *)
Lemma scan_switch_iff_lower cr fx row cands :
  let seed := (supplier_country (item row),
               alt_cost cr fx row (supplier_country (item row))) in
  fst (foldl (scan cr fx row) seed cands) ≠ supplier_country (item row)
  <-> snd (foldl (scan cr fx row) seed cands) < snd seed.
Proof.
  intros seed. split.
  - intros Hne.
    destruct (scan_seed_or_lower cr fx row cands seed) as [Heq | Hlt]; [|done].
    rewrite Heq in Hne. done.
  - intros Hlt Heq.
    destruct (scan_result cr fx row cands seed) as [Hres | (c & _ & Hres)];
      rewrite Hres in *; simpl in *.
    + by apply Qlt_irrefl in Hlt.
    + subst c. by apply Qlt_irrefl in Hlt.
Qed.

(** Savings of one row against the outcome of its scan. *)
Lemma recommend_row_saving cands cr fx row :
  scenario_landed_cost row = alt_cost cr fx row (supplier_country (item row)) ->
  (0 < savings_per_unit_if_switch (recommend_row cands cr fx row)
   <-> alt_country (recommend_row cands cr fx row) ≠ supplier_country (item row))
  /\ (0 < annual_savings_if_switch (recommend_row cands cr fx row)
      <-> alt_country (recommend_row cands cr fx row) ≠ supplier_country (item row)
          /\ (0 < annual_units (item row))%Z).
Proof.
  intros Hcost.
  destruct (alt_of_recommend_row cands cr fx row) as (-> & _ & Hsav & ->).
  pose proof (scan_switch_iff_lower cr fx row cands) as Hswitch.
  cbn zeta in Hswitch. rewrite Hsav. rewrite <- Hcost in Hswitch.
  set (res := foldl (scan cr fx row)
                (supplier_country (item row), scenario_landed_cost row) cands) in *.
  assert (Hunit : 0 < Num.pymax 0.0 (scenario_landed_cost row - snd res)
                  <-> fst res ≠ supplier_country (item row)).
  { rewrite pymax_zero_pos. etransitivity; [|symmetry; apply Hswitch].
    simpl. split; intros H; lra. }
  split; [exact Hunit|].
  rewrite <- Hunit.
  assert (Hnonneg : 0 <= Num.pymax 0.0 (scenario_landed_cost row - snd res)).
  { eapply Qle_trans; [|apply NumFacts.pymax_ge_l]. discriminate. }
  set (s := Num.pymax 0.0 (scenario_landed_cost row - snd res)) in *.
  set (u := annual_units (item row)).
  assert (Hu : (0 < u)%Z <-> 0 < inject_Z u).
  { unfold Qlt; simpl. lia. }
  rewrite Hu. split.
  - intros Hprod. split.
    + destruct (Qlt_le_dec 0 s) as [|Hs]; [done|].
      assert (s == 0) as Hz by lra. rewrite Hz in Hprod. lra.
    + destruct (Qlt_le_dec 0 (inject_Z u)) as [|Hneg]; [done|].
      exfalso. apply (Qlt_not_le _ _ Hprod).
      assert (H0 : inject_Z u * s <= 0 * s)
        by (apply Qmult_le_compat_r; [exact Hneg | exact Hnonneg]).
      lra.
  - intros [Hs Hpos]. by apply Qmult_lt_0_compat.
Qed.

(** X7. A saving goes with a switch and only with a switch: for every
    record the saving per unit is positive exactly when [alt_country]
    differs from the current supplier country, and the annual saving is
    positive exactly when, besides, [annual_units] is positive. *)
Theorem saving_iff_switch seed parse ui df out e :
  pipeline seed parse ui df = inr out ->
  e ∈ table out ->
  (0 < savings_per_unit_if_switch e
   <-> alt_country e ≠ supplier_country (item (costs e)))
  /\ (0 < annual_savings_if_switch e
      <-> alt_country e ≠ supplier_country (item (costs e))
          /\ (0 < annual_units (item (costs e)))%Z).
Proof.
  intros Hrun He.
  apply pipeline_inr in Hrun as (rows & _ & _ & ->).
  apply elem_of_table in He as (r & Hr & ->).
  rewrite costs_recommend_row.
  apply recommend_row_saving, scenario_cost_is_alt_cost.
Qed.

Lemma saving_iff_switch_witness :
  (0 < savings_per_unit_if_switch DemoSwitch.china
   <-> alt_country DemoSwitch.china ≠ supplier_country (item (costs DemoSwitch.china)))
  /\ (0 < annual_savings_if_switch DemoSwitch.china
      <-> alt_country DemoSwitch.china ≠ supplier_country (item (costs DemoSwitch.china))
          /\ (0 < annual_units (item (costs DemoSwitch.china)))%Z).
Proof.
  apply (saving_iff_switch Demo.seed Decimal.parse DemoSwitch.ui DemoSwitch.df
           DemoSwitch.out).
  - vm_compute. reflexivity.
  - vm_compute. left.
Defined.

Lemma le_refl_string (a : string) : Str.le a a.
Proof. unfold Str.le, String.leb. by rewrite StrFacts.compare_refl. Qed.

(** X8. Ties among candidates go to the alphabetically first: when the
    alternative differs from the current supplier country, every candidate
    country that is as cheap as the alternative comes at or after it in the
    order of [sorted]. *)
Theorem alternative_first_among_ties seed parse ui df out e c :
  pipeline seed parse ui df = inr out ->
  e ∈ table out ->
  alt_country e ≠ supplier_country (item (costs e)) ->
  let baseline_map := default_tariffs ((item ∘ costs) <$> table out) in
  let scenario_map := country_rates ui baseline_map in
  c ∈ candidate_countries seed baseline_map ->
  alt_cost scenario_map (slider ui) (costs e) c <= alt_landed_cost e ->
  Str.le (alt_country e) c.
Proof.
  intros Hrun He.
  apply pipeline_inr in Hrun as (rows & _ & _ & ->).
  rewrite table_items.
  apply elem_of_table in He as (r & Hr & ->).
  cbn zeta. rewrite costs_recommend_row.
  set (dt := default_tariffs rows). set (cr := country_rates ui dt).
  set (cands := candidate_countries seed dt). set (row := cost_row dt cr (slider ui) r).
  destruct (alt_of_recommend_row cands cr (slider ui) row) as (-> & -> & _).
  assert (Hsorted : StronglySorted Str.le cands).
  { apply StronglySorted_merge_sort; apply _. }
  destruct (scan_first_minimum cr (slider ui) row cands
              (supplier_country (item row), scenario_landed_cost row))
    as [-> | (before & a & after & Hsplit & -> & _ & Hbefore & _)]; simpl.
  - done.
  - intros _ Hc Hcost. rewrite Hsplit in Hc, Hsorted.
    apply elem_of_app in Hc as [Hc | Hc].
    + exfalso. apply (Qlt_not_le _ _ (Hbefore c Hc) Hcost).
    + apply StronglySorted_app_1_r in Hsorted.
      apply elem_of_cons in Hc as [-> | Hc]; [apply le_refl_string|].
      inversion Hsorted as [|? ? _ Hall]; subst.
      rewrite Forall_forall in Hall. by apply Hall.
Qed.

Lemma alternative_first_among_ties_witness :
  Str.le (alt_country DemoSwitch.china) "USA".
Proof.
  apply (alternative_first_among_ties Demo.seed Decimal.parse DemoSwitch.ui
           DemoSwitch.df DemoSwitch.out DemoSwitch.china "USA").
  - vm_compute. reflexivity.
  - vm_compute. left.
  - vm_compute. discriminate.
  - vm_compute. do 8 right. left.
  - vm_compute. discriminate.
Defined.



(** X10. A record whose cost was repaired to zero is neutral: its landed
    costs, annual costs and delta are 0, it keeps its current supplier
    country, and its savings are 0. *)
Theorem zero_cost_record_is_neutral seed parse ui df out e :
  pipeline seed parse ui df = inr out ->
  e ∈ table out ->
  base_cost (item (costs e)) == 0 ->
  baseline_landed_cost (costs e) == 0
  /\ scenario_landed_cost (costs e) == 0
  /\ annual_cost_baseline (costs e) == 0
  /\ annual_cost_scenario (costs e) == 0
  /\ annual_delta (costs e) == 0
  /\ alt_country e = supplier_country (item (costs e))
  /\ savings_per_unit_if_switch e == 0
  /\ annual_savings_if_switch e == 0.
Proof.
  intros Hrun He.
  apply pipeline_inr in Hrun as (rows & _ & _ & ->).
  apply elem_of_table in He as (r & Hr & ->).
  rewrite costs_recommend_row, item_cost_row. intros Hzero.
  set (dt := default_tariffs rows). set (cr := country_rates ui dt).
  set (cands := candidate_countries seed dt). set (row := cost_row dt cr (slider ui) r).
  destruct (alt_of_recommend_row cands cr (slider ui) row) as (-> & _ & Hsav & ->).
  assert (Hscen : scenario_landed_cost row == 0).
  { unfold row, cost_row, landed_cost; simpl. rewrite Hzero. ring. }
  assert (Hkeep : foldl (scan cr (slider ui) row)
                    (supplier_country (item row), scenario_landed_cost row) cands
                  = (supplier_country (item row), scenario_landed_cost row)).
  { apply scan_keeps_seed. intros c _; simpl.
    unfold alt_cost, landed_cost; simpl. rewrite Hzero. lra. }
  rewrite Hsav, Hkeep; simpl.
  assert (Hs : Num.pymax 0.0 (landed_cost r cr (slider ui) - landed_cost r cr (slider ui)) == 0).
  { unfold Num.pymax. destruct (Num.ltb _ _) eqn:E; [|reflexivity].
    apply NumFacts.ltb_lt in E. lra. }
  unfold landed_cost in *. rewrite Hs.
  split_and!; try reflexivity; rewrite Hzero; ring.
Qed.

Lemma zero_cost_record_is_neutral_witness :
  baseline_landed_cost (costs DemoFree.row) == 0
  /\ scenario_landed_cost (costs DemoFree.row) == 0
  /\ annual_cost_baseline (costs DemoFree.row) == 0
  /\ annual_cost_scenario (costs DemoFree.row) == 0
  /\ annual_delta (costs DemoFree.row) == 0
  /\ alt_country DemoFree.row = supplier_country (item (costs DemoFree.row))
  /\ savings_per_unit_if_switch DemoFree.row == 0
  /\ annual_savings_if_switch DemoFree.row == 0.
Proof.
  apply (zero_cost_record_is_neutral Demo.seed Decimal.parse untouched
           DemoFree.df DemoFree.out).
  - vm_compute. reflexivity.
  - vm_compute. left.
  - vm_compute. reflexivity.
Defined.

(** ** The FX multiplier and the recommendation (lines 68, 78, 91) *)






(** ** Listings (lines 109, 114, 119) *)

Section SortDesc.

Context {A : Type} (key : A -> Q).

Lemma desc_le (x y : A) : desc key x y <-> key y <= key x.
Proof. unfold desc. apply Qle_bool_iff. Qed.

#[global] Instance desc_total : Total (desc key).
Proof.
  intros x y. rewrite !desc_le.
  destruct (Qlt_le_dec (key x) (key y)) as [H|H]; [right | left]; lra.
Qed.

#[global] Instance desc_trans : Transitive (desc key).
Proof. intros x y z. rewrite !desc_le. intros. lra. Qed.

Lemma StronglySorted_desc (l : list A) :
  StronglySorted (desc key) l ->
  StronglySorted (fun a b => key b <= key a) l.
Proof.
  induction 1 as [|x l _ IH Hall]; constructor; [done|].
  eapply Forall_impl; [exact Hall|]. intros y. apply desc_le.
Qed.

(** The first [n] rows of a table sorted by decreasing [key]: how many they
    are, in what order, and how they compare with the rows left out. *)
Lemma head_sort_desc (n : nat) (l : list A) :
  length (head n (sort_desc key l)) = min n (length l)
  /\ StronglySorted (fun a b => key b <= key a) (head n (sort_desc key l))
  /\ l ≡ₚ head n (sort_desc key l) ++ drop n (sort_desc key l)
  /\ forall a b, a ∈ head n (sort_desc key l) -> b ∈ drop n (sort_desc key l) ->
       key b <= key a.
Proof.
  unfold head, sort_desc.
  assert (Hsorted : StronglySorted (desc key)
            (take n (merge_sort (desc key) l) ++ drop n (merge_sort (desc key) l))).
  { rewrite take_drop. apply StronglySorted_merge_sort; apply _. }
  split_and!.
  - by rewrite length_take, merge_sort_Permutation.
  - apply StronglySorted_desc. by apply StronglySorted_app_1_l in Hsorted.
  - by rewrite take_drop, merge_sort_Permutation.
  - intros a b Ha Hb. apply desc_le.
    by apply (StronglySorted_app_1_elem_of _ _ _ _ _ Hsorted).
Qed.

End SortDesc.

(** X12. The listing of increases holds the 15 rows of the table with the
    largest [annual_delta] (all of them if there are fewer), largest first:
    it has [min 15 n] rows for a table of [n], it is in decreasing order of
    [annual_delta], and the table is the listing together with rows whose
    delta is at most that of every listed row. *)
Theorem top_inc_is_top_15 (df : list enriched) :
  length (top_inc df) = min 15 (length df)
  /\ StronglySorted (fun a b => annual_delta (costs b) <= annual_delta (costs a))
       (top_inc df)
  /\ exists rest,
       df ≡ₚ top_inc df ++ rest
       /\ forall a b, a ∈ top_inc df -> b ∈ rest ->
            annual_delta (costs b) <= annual_delta (costs a).
Proof.
  destruct (head_sort_desc (annual_delta ∘ costs) 15 df)
    as (Hlen & Hsorted & Hperm & Hdom).
  split_and!; [exact Hlen | exact Hsorted |].
  exists (drop 15 (sort_desc (annual_delta ∘ costs) df)). by split.
Qed.

(** X13. The listing of recommendations holds at most 15 rows, in
    decreasing order of annual saving; each is a row of the table with a
    positive annual saving, an alternative country different from its
    current one and a positive volume; and a row with a positive annual
    saving that is left out saves at most as much as every listed row. *)
Theorem recommendations_are_switches seed parse ui df out :
  pipeline seed parse ui df = inr out ->
  (length (recommendations out) <= 15)%nat
  /\ StronglySorted
       (fun a b => annual_savings_if_switch b <= annual_savings_if_switch a)
       (recommendations out)
  /\ (forall e, e ∈ recommendations out ->
        e ∈ table out
        /\ 0 < annual_savings_if_switch e
        /\ alt_country e ≠ supplier_country (item (costs e))
        /\ (0 < annual_units (item (costs e)))%Z)
  /\ (forall e, e ∈ table out -> 0 < annual_savings_if_switch e ->
        e ∈ recommendations out
        \/ forall a, a ∈ recommendations out ->
             annual_savings_if_switch e <= annual_savings_if_switch a).
Proof.
  intros Hrun.
  apply pipeline_inr in Hrun as (rows & _ & _ & ->).
  unfold compute; cbn [recommendations table]. unfold recs.
  set (tbl := recommend_row _ _ _ <$> _).
  set (positive := filter (fun e => Num.ltb 0 (annual_savings_if_switch e) = true) tbl).
  destruct (head_sort_desc annual_savings_if_switch 15 positive)
    as (Hlen & Hsorted & Hperm & Hdom).
  assert (Hpos : forall e, e ∈ positive <-> 0 < annual_savings_if_switch e /\ e ∈ tbl).
  { intros e. unfold positive. rewrite list_elem_of_filter, NumFacts.ltb_lt. done. }
  split_and!.
  - rewrite Hlen. lia.
  - exact Hsorted.
  - intros e He.
    assert (Hin : e ∈ positive).
    { rewrite Hperm. apply elem_of_app. by left. }
    apply Hpos in Hin as [Hsav Hin]. split_and!; [done | done | |].
    all: apply list_elem_of_fmap in Hin as (c & -> & Hc);
      apply list_elem_of_fmap in Hc as (r & -> & _);
      rewrite costs_recommend_row;
      match goal with
      | H : 0 < annual_savings_if_switch (recommend_row ?cands ?cr ?fx ?row) |- _ =>
          destruct (recommend_row_saving cands cr fx row
                      (scenario_cost_is_alt_cost _ _ _ _)) as (_ & Hiff);
          apply Hiff in H as [? ?]
      end; done.
  - intros e He Hsav.
    assert (Hin : e ∈ positive) by (by apply Hpos).
    rewrite Hperm in Hin. apply elem_of_app in Hin as [Hin | Hin]; [by left|].
    right. intros a Ha. by apply Hdom.
Qed.

Lemma recommendations_are_switches_witness :
  (length (recommendations DemoSwitch.out) <= 15)%nat
  /\ StronglySorted
       (fun a b => annual_savings_if_switch b <= annual_savings_if_switch a)
       (recommendations DemoSwitch.out)
  /\ (forall e, e ∈ recommendations DemoSwitch.out ->
        e ∈ table DemoSwitch.out
        /\ 0 < annual_savings_if_switch e
        /\ alt_country e ≠ supplier_country (item (costs e))
        /\ (0 < annual_units (item (costs e)))%Z)
  /\ (forall e, e ∈ table DemoSwitch.out -> 0 < annual_savings_if_switch e ->
        e ∈ recommendations DemoSwitch.out
        \/ forall a, a ∈ recommendations DemoSwitch.out ->
             annual_savings_if_switch e <= annual_savings_if_switch a).
Proof.
  apply (recommendations_are_switches Demo.seed Decimal.parse DemoSwitch.ui
           DemoSwitch.df).
  vm_compute. reflexivity.
Defined.

Section GroupBy.

Context {A : Type} (k : A -> string) (f : A -> Q).




End GroupBy.


(** ** Candidate list (line 84) *)

(** X15. The candidate list is in ascending order, has no duplicate, and
    holds exactly the keys of the tariff map and the countries written in
    the script. *)
Theorem candidate_countries_sorted_set seed (dt : gmap string Q) :
  StronglySorted Str.le (candidate_countries seed dt)
  /\ NoDup (candidate_countries seed dt)
  /\ forall c, c ∈ candidate_countries seed dt
               <-> is_Some (dt !! c) \/ c ∈ listed_countries.
Proof.
  split_and!.
  - apply StronglySorted_merge_sort; apply _.
  - unfold candidate_countries, Str.sorted.
    rewrite merge_sort_Permutation, (set_iter_perm seed). apply NoDup_elements.
  - intros c. by rewrite elem_of_candidate_countries, elem_of_keys.
Qed.

(** ** Baseline figures and the sidebar (lines 76-79) *)

(** X16. The sidebar never moves a baseline figure: two runs on the same
    table under any two sidebars have the same [baseline_tariff],
    [baseline_landed_cost] and [annual_cost_baseline] columns and the same
    baseline total. *)
Theorem baseline_ignores_sidebar seed parse ui1 ui2 df out1 out2 :
  pipeline seed parse ui1 df = inr out1 ->
  pipeline seed parse ui2 df = inr out2 ->
  (baseline_tariff ∘ costs) <$> table out1 = (baseline_tariff ∘ costs) <$> table out2
  /\ (baseline_landed_cost ∘ costs) <$> table out1
     = (baseline_landed_cost ∘ costs) <$> table out2
  /\ (annual_cost_baseline ∘ costs) <$> table out1
     = (annual_cost_baseline ∘ costs) <$> table out2
  /\ annual_cost_baseline_total (kpi out1) = annual_cost_baseline_total (kpi out2).
Proof.
  intros Hrun1 Hrun2.
  apply pipeline_inr in Hrun1 as (rows & _ & Hrows & ->).
  apply pipeline_inr in Hrun2 as (rows' & _ & Hrows' & ->).
  assert (rows' = rows) as -> by congruence.
  assert (Hcol : (annual_cost_baseline ∘ costs) <$> table (compute seed ui1 rows)
                 = (annual_cost_baseline ∘ costs) <$> table (compute seed ui2 rows)).
  { unfold compute; cbn [table]. rewrite <- !list_fmap_compose.
    apply list_fmap_ext. intros; reflexivity. }
  split_and!.
  - unfold compute; cbn [table]. rewrite <- !list_fmap_compose.
    apply list_fmap_ext. intros; reflexivity.
  - unfold compute; cbn [table]. rewrite <- !list_fmap_compose.
    apply list_fmap_ext. intros; reflexivity.
  - exact Hcol.
  - unfold compute in *; cbn [kpi table] in *. unfold metrics; simpl.
    by rewrite Hcol.
Qed.

Lemma baseline_ignores_sidebar_witness :
  (baseline_tariff ∘ costs) <$> table DemoSwitch.out
  = (baseline_tariff ∘ costs) <$> table DemoTie.out
  /\ (baseline_landed_cost ∘ costs) <$> table DemoSwitch.out
     = (baseline_landed_cost ∘ costs) <$> table DemoTie.out
  /\ (annual_cost_baseline ∘ costs) <$> table DemoSwitch.out
     = (annual_cost_baseline ∘ costs) <$> table DemoTie.out
  /\ annual_cost_baseline_total (kpi DemoSwitch.out)
     = annual_cost_baseline_total (kpi DemoTie.out).
Proof.
  apply (baseline_ignores_sidebar Demo.seed Decimal.parse DemoSwitch.ui DemoTie.ui
           DemoSwitch.df).
  - vm_compute. reflexivity.
  - vm_compute. reflexivity.
Defined.

(** ** How a run ends, and what it keeps of its input (lines 30-40, 60-65) *)

Lemma to_record_clean_row_Some parse cols raw r :
  to_record (clean_row parse cols raw) = Some r ->
  sku r = getitem cols raw "sku"
  /\ product_name r = getitem cols raw "product_name"
  /\ hs_code r = getitem cols raw "hs_code"
  /\ base_cost r = clean_base_cost parse (getitem cols raw "base_cost")
  /\ annual_units r = clean_annual_units parse (getitem cols raw "annual_units")
  /\ fill_country (getitem cols raw "supplier_country") = CText (supplier_country r).
Proof.
  unfold to_record, country_name, clean_row; simpl.
  destruct (fill_country (getitem cols raw "supplier_country")) as [x|s|] eqn:E;
    simpl; try discriminate.
  intros [= <-]. simpl. by split_and!.
Qed.





(** X18. A successful run keeps every row, in order: the table has one
    record per data row of the input and the first metric counts them, the
    pass-through columns [sku], [product_name] and [hs_code] hold the input
    cells, [base_cost] and [annual_units] are the cleaned cells, and the
    supplier country is the input cell, or ["Unknown"] when it is missing. *)
Theorem table_follows_input seed parse ui df out :
  pipeline seed parse ui df = inr out ->
  let cols := Str.lower <$> columns df in
  skus (kpi out) = length (body df)
  /\ Forall2
       (fun raw e =>
          let r := item (costs e) in
          sku r = getitem cols raw "sku"
          /\ product_name r = getitem cols raw "product_name"
          /\ hs_code r = getitem cols raw "hs_code"
          /\ base_cost r = clean_base_cost parse (getitem cols raw "base_cost")
          /\ annual_units r
             = clean_annual_units parse (getitem cols raw "annual_units")
          /\ fill_country (getitem cols raw "supplier_country")
             = CText (supplier_country r))
       (body df) (table out).
Proof.
  intros Hrun cols.
  apply pipeline_inr in Hrun as (rows & _ & Hrows & ->). fold cols in Hrows.
  apply mapM_Some, Forall2_fmap_l in Hrows.
  assert (Hlen : length rows = length (body df)).
  { symmetry. by eapply Forall2_length. }
  split.
  - unfold compute, metrics; simpl. by rewrite !length_fmap.
  - unfold compute; cbn [table]. rewrite <- list_fmap_compose.
    apply Forall2_fmap_r. eapply Forall2_impl; [exact Hrows|].
    intros raw r Hr. unfold compose. cbn zeta.
    rewrite costs_recommend_row, item_cost_row.
    by apply to_record_clean_row_Some.
Qed.

Lemma table_follows_input_witness :
  skus (kpi DemoSwitch.out) = length (body DemoSwitch.df)
  /\ Forall2
       (fun raw e =>
          let r := item (costs e) in
          sku r = getitem (Str.lower <$> columns DemoSwitch.df) raw "sku"
          /\ product_name r
             = getitem (Str.lower <$> columns DemoSwitch.df) raw "product_name"
          /\ hs_code r = getitem (Str.lower <$> columns DemoSwitch.df) raw "hs_code"
          /\ base_cost r
             = clean_base_cost Decimal.parse
                 (getitem (Str.lower <$> columns DemoSwitch.df) raw "base_cost")
          /\ annual_units r
             = clean_annual_units Decimal.parse
                 (getitem (Str.lower <$> columns DemoSwitch.df) raw "annual_units")
          /\ fill_country
               (getitem (Str.lower <$> columns DemoSwitch.df) raw "supplier_country")
             = CText (supplier_country r))
       (body DemoSwitch.df) (table DemoSwitch.out).
Proof.
  apply (table_follows_input Demo.seed Decimal.parse DemoSwitch.ui DemoSwitch.df).
  vm_compute. reflexivity.
Defined.

(** ** Columns the script does not read (lines 30-40) *)

Lemma index_of_lt (name : string) (l : list string) (i : nat) :
  index_of name l = Some i -> (i < length l)%nat.
Proof.
  revert i. induction l as [|c l IH]; intros i; simpl; [done|].
  destruct (decide (c = name)); [intros [= <-]; lia|].
  destruct (index_of name l) as [j|]; simpl; [|done].
  intros [= <-]. specialize (IH j eq_refl). lia.
Qed.

Lemma index_of_app (name : string) (l1 l2 : list string) :
  index_of name (l1 ++ l2)
  = match index_of name l1 with
    | Some i => Some i
    | None => (fun j => (length l1 + j)%nat) <$> index_of name l2
    end.
Proof.
  induction l1 as [|c l1 IH]; simpl.
  - by destruct (index_of name l2).
  - destruct (decide (c = name)); [done|]. rewrite IH.
    destruct (index_of name l1); [done|]. by destruct (index_of name l2).
Qed.

Lemma getitem_insert (l1 l2 : list string) (r1 r2 : list cell) x c name :
  name ≠ x -> length l1 = length r1 ->
  getitem (l1 ++ x :: l2) (r1 ++ c :: r2) name = getitem (l1 ++ l2) (r1 ++ r2) name.
Proof.
  intros Hne Hlen. unfold getitem. rewrite !index_of_app.
  destruct (index_of name l1) as [i|] eqn:E.
  - apply index_of_lt in E. by rewrite !lookup_app_l by lia.
  - simpl. destruct (decide (x = name)); [congruence|].
    destruct (index_of name l2) as [j|]; simpl; [|done].
    rewrite !lookup_app_r by lia.
    replace (length l1 + S j - length r1)%nat with (S j) by lia.
    replace (length l1 + j - length r1)%nat with j by lia. done.
Qed.

Lemma getitem_insert_at (cols : list string) (raw : list cell) k x c name :
  name ≠ x -> (k <= length cols)%nat -> (k <= length raw)%nat ->
  getitem (insert_at k x cols) (insert_at k c raw) name = getitem cols raw name.
Proof.
  intros Hne Hcols Hraw. unfold insert_at.
  rewrite getitem_insert, !take_drop; [done | done |].
  by rewrite !length_take_le.
Qed.

Lemma elem_of_insert_at {A : Type} (k : nat) (x y : A) (l : list A) :
  y ∈ insert_at k x l <-> y = x \/ y ∈ l.
Proof.
  unfold insert_at. rewrite <- (take_drop k l) at 3.
  rewrite !elem_of_app, elem_of_cons. tauto.
Qed.

Lemma clean_row_insert_at parse (cols : list string) (raw : list cell) k x c :
  x ∉ required_columns -> (k <= length cols)%nat -> (k <= length raw)%nat ->
  clean_row parse (insert_at k x cols) (insert_at k c raw) = clean_row parse cols raw.
Proof.
  intros Hx Hcols Hraw. unfold clean_row.
  rewrite !(getitem_insert_at cols raw k x c); try done.
  all: intros <-; apply Hx; unfold required_columns; set_solver.
Qed.

(** X19. A column the script does not read changes nothing: adding, at any
    position, a column whose lower-cased name is not a required one gives
    the same run, error or output. *)
Theorem extra_column_is_ignored seed parse ui df k name cells :
  Str.lower name ∉ required_columns ->
  (k <= length (columns df))%nat ->
  Forall (fun raw => (k <= length raw)%nat) (body df) ->
  length cells = length (body df) ->
  pipeline seed parse ui (add_column k name cells df) = pipeline seed parse ui df.
Proof.
  intros Hname Hk Hrows Hcells.
  assert (Hcols : Str.lower <$> columns (add_column k name cells df)
                  = insert_at k (Str.lower name) (Str.lower <$> columns df)).
  { unfold add_column, insert_at; simpl.
    by rewrite fmap_app, fmap_cons, fmap_take, fmap_drop. }
  assert (Hmissing : missing (add_column k name cells df) = missing df).
  { unfold missing. rewrite Hcols. apply set_eq. intros c.
    rewrite !elem_of_difference, !elem_of_list_to_set, elem_of_insert_at.
    unfold required. rewrite elem_of_list_to_set.
    split; intros [Hc Hnot]; (split; [done|]).
    - intros Hin. apply Hnot. by right.
    - intros [-> | Hin]; done. }
  assert (Hbody : clean_row parse (Str.lower <$> columns (add_column k name cells df))
                    <$> body (add_column k name cells df)
                  = clean_row parse (Str.lower <$> columns df) <$> body df).
  { rewrite Hcols. unfold add_column; simpl. clear Hcols Hmissing.
    revert cells Hcells.
    induction Hrows as [|raw rows Hraw Hrows IH]; intros [|c cells] Hcells;
      simpl in *; try done.
    rewrite IH by lia. rewrite clean_row_insert_at; try done.
    by rewrite length_fmap. }
  unfold pipeline, load. by rewrite Hmissing, Hbody.
Qed.

Lemma extra_column_is_ignored_witness :
  pipeline Demo.seed Decimal.parse DemoSwitch.ui DemoExtra.df
  = pipeline Demo.seed Decimal.parse DemoSwitch.ui DemoSwitch.df.
Proof.
  apply (extra_column_is_ignored Demo.seed Decimal.parse DemoSwitch.ui
           DemoSwitch.df 2 "Notes" [CText "urgent"; CNA]).
  - vm_compute. intros H.
    by repeat (apply elem_of_cons in H as [H|H]; [discriminate|]);
      apply elem_of_nil in H.
  - vm_compute. lia.
  - repeat constructor; vm_compute; lia.
  - reflexivity.
Defined.

(** ** Candidates and the tariff table (lines 84, 90) *)

Lemma listed_countries_builtin (c : string) :
  c ∈ listed_countries -> is_Some (default_tariffs_builtin !! c).
Proof.
  unfold listed_countries. intros H.
  repeat (apply elem_of_cons in H as [-> | H]; [by vm_compute; eexists|]).
  by apply elem_of_nil in H.
Qed.

(** X20. In a run the list written on line 84 adds nothing and the fallback
    rate of line 90 is never used: the candidates are exactly the countries
    of the tariff table, in sorted order, and each of them has a scenario
    rate. *)
Theorem candidates_are_tariff_countries seed (ui : sidebar) (rows : list record) :
  candidate_countries seed (default_tariffs rows)
  = Str.sorted (keys (default_tariffs rows))
  /\ forall c, c ∈ candidate_countries seed (default_tariffs rows) ->
       is_Some (country_rates ui (default_tariffs rows) !! c).
Proof.
  assert (Hkeys : forall c, c ∈ keys (default_tariffs rows) ++ listed_countries
                            <-> c ∈ keys (default_tariffs rows)).
  { intros c. rewrite elem_of_app. split; [|by left].
    intros [H | H]; [done|].
    apply elem_of_keys_default_tariffs. left.
    by apply elem_of_keys, listed_countries_builtin. }
  split.
  - unfold candidate_countries. apply StrFacts.sorted_Permutation.
    apply NoDup_Permutation.
    + rewrite (set_iter_perm seed). apply NoDup_elements.
    + unfold keys. apply NoDup_fst_map_to_list.
    + intros c. by rewrite (set_iter_perm seed), elem_of_elements,
        elem_of_list_to_set, Hkeys.
  - intros c Hc. apply elem_of_candidate_countries in Hc.
    rewrite <- elem_of_app, Hkeys, elem_of_keys in Hc.
    rewrite country_rates_lookup. by apply fmap_is_Some.
Qed.



Example credit_goes_to_china : alt_country DemoCredit.row = "China"%string.
Proof. reflexivity. Qed.
